(** * APPA membership fee calculator: tables, lookups and loader of [script.js]

    A shallow embedding of the table loader (the [fetch] handler with
    [parseSection]) and of the fee calculator ([getFourYearFee],
    [getTwoYearFee], [getNonHigherEdFee], [getBusinessPartnerFee],
    [getRegionalFee], [calculateFee]), and of the dropdown functions
    ([populateDropdown], [clearDropdown], [handleInstitutionTypeChange]).

    Conventions of the embedding.
    - A JavaScript number is an IEEE 754 binary64 value, taken from the
      Standard Library's executable specification of floats ([spec_float]
      with precision 53 and maximal exponent 1024).
    - A JavaScript string read from the file is a [string]; each character
      stands for one UTF-16 code unit below 256. Text that the script
      builds for the page (labels, markup) is a list of code units, since
      upper-casing leaves that range.
    - [undefined] in a position that otherwise holds a value of type [A] is
      [None : option A].
    - The [Map]s [nonHigherEdFees] and [businessPartnerFees] are finite
      maps. The plain objects [feeMatrix], [fteIndexMap] and
      [regionMultipliers] are finite maps of their own properties, read
      with [get], which follows the prototype: a name that is not an own
      property may be a member of [Object.prototype]. Numbers are
      assigned with [put]: an assignment of a number to [__proto__]
      creates no property. Arrays are assigned to [feeMatrix] only, where
      the entry at [__proto__] stands for the array that the assignment
      installs as prototype.
    - The global variables are the fields of one record, [Tables], passed
      explicitly; the form and the result elements of the page are the
      record [Dom]. *)

From Stdlib Require Import ZArith Ascii String List Bool Lia.
From Stdlib Require Import Floats.SpecFloat.
From stdpp Require Import base option list strings gmap fin_maps.

Local Open Scope string_scope.
Local Open Scope Z_scope.

(** ** Numbers *)

Module Num.

Definition prec : Z := 53.
Definition emax : Z := 1024.

Abbreviation number := spec_float.

Definition NaN : number := S754_nan.
Definition zero : number := S754_zero false.

(** [a * b] and [a + b] on numbers. *)
Definition mul (a b : number) : number := SFmul prec emax a b.
Definition add (a b : number) : number := SFadd prec emax a b.

(** The integer [z] as a number (round to nearest, ties to even); the
    sign of a zero result is [neg]. *)
Definition of_Z (neg : bool) (z : Z) : number :=
  binary_normalize prec emax z 0 neg.

(** ToBoolean on a number: [NaN], [+0] and [-0] are falsy. *)
Definition truthy (x : number) : bool :=
  match x with
  | S754_nan | S754_zero _ => false
  | S754_infinity _ | S754_finite _ _ _ => true
  end.

(** [Math.ceil]: the least integral number not below [x]; a negative
    [x] above [-1] gives [-0]. *)
Definition Math_ceil (x : number) : number :=
  match x with
  | S754_finite s m e =>
      if 0 <=? e then x
      else
        let d := 2 ^ (- e) in
        let q := Z.pos m / d in
        let n := if s then - q
                 else if Z.pos m mod d =? 0 then q else q + 1 in
        of_Z s n
  | _ => x
  end.

(** The decimal value [m * 10^k] ([m > 0]) with sign [neg], rounded to
    the nearest number, ties to even. *)
Definition of_decimal (neg : bool) (m : Z) (k : Z) : number :=
  match m with
  | Z0 => S754_zero neg
  | Zneg _ => NaN
  | Zpos _ =>
      if 0 <=? k then of_Z neg (if neg then - (m * 10 ^ k) else m * 10 ^ k)
      else
        let '(q, e, l) := SFdiv_core_binary prec emax m 0 (10 ^ (- k)) 0 in
        binary_round_aux prec emax neg q e l
  end.

End Num.

Export Num.


(** ** Strings *)

Module Str.

Definition code (c : ascii) : Z := Z.of_nat (nat_of_ascii c).

(** White space and line terminators among the code units below 256:
    TAB, LF, VT, FF, CR, SP and NBSP. *)
Definition is_space (c : ascii) : bool :=
  let n := code c in
  ((9 <=? n) && (n <=? 13)) || (n =? 32) || (n =? 160).

Fixpoint trimStart (s : string) : string :=
  match s with
  | String c s' => if is_space c then trimStart s' else s
  | EmptyString => EmptyString
  end.

(** [trimEnd] keeps a character when it is not white space or when
    something is kept after it. *)
Fixpoint trimEnd (s : string) : string :=
  match s with
  | EmptyString => EmptyString
  | String c s' =>
      match trimEnd s' with
      | EmptyString => if is_space c then EmptyString else String c EmptyString
      | t => String c t
      end
  end.

(** [s.trim()] *)
Definition trim (s : string) : string := trimEnd (trimStart s).

(** Removal of every double-quote character (code unit 34), as
    [replace] with the global pattern and an empty replacement does. *)
Fixpoint remove_quotes (s : string) : string :=
  match s with
  | EmptyString => EmptyString
  | String c s' =>
      if Ascii.eqb c "034"%char then remove_quotes s'
      else String c (remove_quotes s')
  end.

(** [s.split(sep)] for a one-character separator: the array always has a
    first element, returned apart from the others. *)
Fixpoint split (sep : ascii) (s : string) : string * list string :=
  match s with
  | EmptyString => (EmptyString, [])
  | String c s' =>
      let '(h, t) := split sep s' in
      if Ascii.eqb c sep then (EmptyString, h :: t) else (String c h, t)
  end.

(** The code units of a string. *)
Fixpoint units (s : string) : list Z :=
  match s with
  | EmptyString => []
  | String c s' => code c :: units s'
  end.

(** [c.toUpperCase()] on one code unit below 256, as code units. Code
    units 97..122 map to 65..90, and 224..254 (without 247) to 192..222;
    223 (sharp s) becomes two letters S, 181 (micro sign) becomes
    U+039C and 255 becomes U+0178; every other code unit is left as it
    is. *)
Definition upper (c : ascii) : list Z :=
  let n := code c in
  if ((97 <=? n) && (n <=? 122))
     || ((224 <=? n) && (n <=? 254) && negb (n =? 247))
  then [n - 32]
  else if n =? 223 then [83; 83]
  else if n =? 181 then [924]
  else if n =? 255 then [376]
  else [n].

(** [s.charAt(0).toUpperCase() + s.slice(1)] *)
Definition capitalize (s : string) : list Z :=
  match s with
  | EmptyString => []
  | String c s' => (upper c ++ units s')%list
  end.

(** [msg.includes(word)] *)
Fixpoint includes (word msg : string) : bool :=
  String.prefix word msg ||
  match msg with
  | EmptyString => false
  | String _ msg' => includes word msg'
  end.

End Str.

(** ** [Number(v)] on a string or [undefined] *)

Module ToNumber.
Import Str.

Definition is_digit (c : ascii) : bool :=
  let n := code c in (48 <=? n) && (n <=? 57).

(** The value of a digit of base at most 16, if [c] is one. *)
Definition digit_value (base : Z) (c : ascii) : option Z :=
  let n := code c in
  let v := if (48 <=? n) && (n <=? 57) then n - 48
           else if (97 <=? n) && (n <=? 102) then n - 87
           else if (65 <=? n) && (n <=? 70) then n - 55
           else 16 in
  if v <? base then Some v else None.

(** The longest prefix of decimal digits, read as an integer, with the
    number of digits and the rest of the string. *)
Fixpoint digits (s : string) (acc : Z) (len : Z) : Z * Z * string :=
  match s with
  | String c s' =>
      if is_digit c then digits s' (10 * acc + (code c - 48)) (len + 1)
      else (acc, len, s)
  | EmptyString => (acc, len, s)
  end.

(** A string made of digits of [base] only, read as an integer. *)
Fixpoint radix_digits (base : Z) (s : string) (acc : Z) : option Z :=
  match s with
  | EmptyString => Some acc
  | String c s' =>
      match digit_value base c with
      | Some v => radix_digits base s' (base * acc + v)
      | None => None
      end
  end.

(** ExponentPart, up to the end of the string; no exponent part is
    exponent 0. *)
Definition exponent (s : string) : option Z :=
  match s with
  | EmptyString => Some 0
  | String c s' =>
      if Ascii.eqb c "e"%char || Ascii.eqb c "E"%char then
        let '(neg, s'') :=
          match s' with
          | String "+"%char r => (false, r)
          | String "-"%char r => (true, r)
          | _ => (false, s')
          end in
        match digits s'' 0 0 with
        | (v, len, EmptyString) =>
            if 0 <? len then Some (if neg then - v else v) else None
        | _ => None
        end
      else None
  end.

(** StrUnsignedDecimalLiteral without [Infinity]: mantissa [m] and
    decimal exponent [k] of the value [m * 10^k]. *)
Definition unsigned_decimal (s : string) : option (Z * Z) :=
  let '(ip, ilen, r1) := digits s 0 0 in
  match r1 with
  | String "."%char r2 =>
      let '(m, flen, r3) := digits r2 ip 0 in
      if (0 <? ilen) || (0 <? flen)
      then e ← exponent r3; Some (m, e - flen)
      else None
  | _ =>
      if 0 <? ilen then e ← exponent r1; Some (ip, e) else None
  end.

Definition signed_decimal (neg : bool) (s : string) : number :=
  if String.eqb s "Infinity" then S754_infinity neg
  else match unsigned_decimal s with
       | Some (m, k) => of_decimal neg m k
       | None => NaN
       end.

Definition non_decimal (base : Z) (s : string) : number :=
  match s with
  | EmptyString => NaN
  | _ => match radix_digits base s 0 with
         | Some v => of_Z false v
         | None => NaN
         end
  end.

(** StringToNumber: the trimmed string is empty (value [+0]), a signed
    decimal literal, or an unsigned binary, octal or hexadecimal
    integer literal; anything else is [NaN]. The mathematical value is
    rounded to the nearest number. *)
Definition StringToNumber (s : string) : number :=
  match trim s with
  | EmptyString => zero
  | String "+"%char r => signed_decimal false r
  | String "-"%char r => signed_decimal true r
  | String "0"%char (String c r) as t =>
      if Ascii.eqb c "x"%char || Ascii.eqb c "X"%char then non_decimal 16 r
      else if Ascii.eqb c "o"%char || Ascii.eqb c "O"%char then non_decimal 8 r
      else if Ascii.eqb c "b"%char || Ascii.eqb c "B"%char then non_decimal 2 r
      else signed_decimal false t
  | t => signed_decimal false t
  end.

(** [Number(v)]: [undefined] converts to [NaN]. *)
Definition Number (v : option string) : number :=
  match v with
  | None => NaN
  | Some s => StringToNumber s
  end.

End ToNumber.

Export ToNumber.

(** ** Global variables *)

(** An element of [twoYearGieOptions]: [{ value, fee }]. *)
Record TwoYearOption := { value : string; fee : number }.

(** An element of [businessPartnerLevels] and [regions]:
    [{ value, label }]; the label is text built by the script. *)
Record LabelledOption := { opt_value : string; opt_label : list Z }.

(** The own properties of the three plain objects. [feeMatrix] is the one
    object to which arrays are assigned: the assignment of an array to
    [__proto__] makes the array the prototype of the object, and reading
    [__proto__] returns it; the entry of the map at that key stands for
    this array. *)

Record Tables := {
  feeMatrix : gmap string (list number);
  gieOptions : list string;
  nonHigherEdFees : gmap string number;
  businessPartnerFees : gmap string number;
  regionMultipliers : gmap string number;
  fteOptions : list string;
  fteIndexMap : gmap string nat;
  twoYearGieOptions : list TwoYearOption;
  businessPartnerLevels : list LabelledOption;
  regions : list LabelledOption
}.

(** The globals as the script's first lines initialise them. *)
Definition initial : Tables := {|
  feeMatrix := ∅;
  gieOptions := [];
  nonHigherEdFees := ∅;
  businessPartnerFees := ∅;
  regionMultipliers := ∅;
  fteOptions := [];
  fteIndexMap := ∅;
  twoYearGieOptions := [];
  businessPartnerLevels := [];
  regions := []
|}.

(** ** Helper functions of the calculator *)

(** [v || 0] where [v] is a number or [undefined]. *)
Definition or_zero (v : option number) : number :=
  match v with
  | Some n => if truthy n then n else zero
  | None => zero
  end.

(** [v || 0] where [v] is a column index or [undefined]. *)
Definition index_or_zero (v : option nat) : nat :=
  match v with
  | Some (S i) => S i
  | Some O | None => O
  end.

(** ** Plain objects *)

(** The member names of [Object.prototype]; every plain object, with its
    own properties or without, answers to them. *)
Definition Object_prototype_names : list string :=
  [ "constructor"; "__defineGetter__"; "__defineSetter__"; "hasOwnProperty";
    "__lookupGetter__"; "__lookupSetter__"; "isPrototypeOf";
    "propertyIsEnumerable"; "toString"; "valueOf"; "__proto__";
    "toLocaleString" ].

Definition inherited (key : string) : bool :=
  existsb (String.eqb key) Object_prototype_names.

(** What [obj[key]] gives: the own property; or else, for a member name of
    the prototype, an object (a function, or for [__proto__] the prototype
    itself); or else [undefined]. *)
Inductive got (V : Type) :=
| Own (v : V)
| Member
| Missing.

Arguments Own {V} v.
Arguments Member {V}.
Arguments Missing {V}.

Definition get {V} (obj : gmap string V) (key : string) : got V :=
  match obj !! key with
  | Some v => Own v
  | None => if inherited key then Member else Missing
  end.

(** [obj[key] = v] for a number [v]: the inherited setter of [__proto__]
    ignores a value that is no object, so that nothing is stored; it is
    not reached when the object has an own property of that name. *)
Definition put {V} (key : string) (v : V) (obj : gmap string V)
  : gmap string V :=
  match obj !! key with
  | None => if String.eqb key "__proto__" then obj else <[key := v]> obj
  | Some _ => <[key := v]> obj
  end.

(** [v || 0] as a factor of a product, where [v] is what a property read
    gives: an inherited member is an object, which is truthy and converts
    to [NaN] in the product. *)
Definition factor_or_zero (v : got number) : number :=
  match v with
  | Own n => or_zero (Some n)
  | Member => NaN
  | Missing => zero
  end.

(** [v || 0] as an index into an array, where [v] is what a property read
    gives: an inherited member is an object, and names no element. *)
Definition column (v : got nat) : option nat :=
  match v with
  | Own i => Some (index_or_zero (Some i))
  | Member => None
  | Missing => Some (index_or_zero None)
  end.

Section Calculator.
Variable T : Tables.

Definition getNonHigherEdFee (institutionType : string) : number :=
  or_zero (nonHigherEdFees T !! institutionType).

Definition getBusinessPartnerFee (level : string) : number :=
  or_zero (businessPartnerFees T !! level).

Definition getRegionalFee (region : string) (baseFee : number) : number :=
  Math_ceil (mul baseFee (factor_or_zero (get (regionMultipliers T) region))).

(** When [feeMatrix[gie]] is an inherited member, it is an object without
    a property named by an index or by an object, so that the last line
    gives 0. (The same holds for what an array installed as prototype
    lets the object inherit: numbers and functions.) *)
Definition getFourYearFee (fie gie : string) : number :=
  match get (feeMatrix T) gie with
  | Missing => zero
  | Member => zero
  | Own row =>
      let fieIndex := column (get (fteIndexMap T) fie) in
      or_zero (i ← fieIndex; row !! i)
  end.

(** [twoYearGieOptions.find(option => option.value === gie)] *)
Definition find_option (gie : string) : option TwoYearOption :=
  List.find (fun o => String.eqb (value o) gie) (twoYearGieOptions T).

Definition getTwoYearFee (gie : string) : number :=
  match find_option gie with
  | Some selectedOption => fee selectedOption
  | None => zero
  end.

End Calculator.

(** ** The page: form controls, result elements, alerts *)

(** The [value] of each of the six [select] elements. *)
Record Form := {
  institutionType : string;
  fie : string;
  gie : string;
  gieTwoYear : string;
  businessLevel : string;
  region : string
}.

(** The [textContent] of a result element: some text the page had, or the
    template [prefix + n.toFixed(2)] written by [calculateFee]. *)
Inductive textContent :=
| Text (s : string)
| Fixed2 (prefix : string) (n : number).

Record Results := {
  nationalFee : textContent;
  regionalFee : textContent;
  totalFee : textContent
}.

Record Dom := {
  form : Form;
  results : Results;
  alerts : list string      (* messages shown by [alert], oldest first *)
}.

Definition alert (msg : string) (d : Dom) : Dom :=
  {| form := form d; results := results d; alerts := alerts d ++ [msg] |}.

Definition show (national regional total : number) (d : Dom) : Dom :=
  {| form := form d;
     results := {| nationalFee := Fixed2 "National Fee: $" national;
                   regionalFee := Fixed2 "Regional Fee: $" regional;
                   totalFee := Fixed2 "Total Fee: $" total |};
     alerts := alerts d |}.

(** [!s] on a string. *)
Definition empty (s : string) : bool := String.eqb s "".

Definition msg_fte_gie : string :=
  "Please select both FTE and GIE for four-year institutions.".
Definition msg_gie : string := "Please select GIE for two-year institutions.".
Definition msg_level : string := "Please select a business level.".
Definition msg_region : string := "Please select a region.".

(** The first part of [calculateFee]: the national fee, or the message of
    the [alert] after which the function returns. *)
Definition national_step (T : Tables) (f : Form) : string + number :=
  if String.eqb (institutionType f) "four-year" then
    if empty (fie f) || empty (gie f) then inl msg_fte_gie
    else inr (getFourYearFee T (fie f) (gie f))
  else if String.eqb (institutionType f) "two-year" then
    if empty (gieTwoYear f) then inl msg_gie
    else inr (getTwoYearFee T (gieTwoYear f))
  else if String.eqb (institutionType f) "business-partner" then
    if empty (businessLevel f) then inl msg_level
    else inr (getBusinessPartnerFee T (businessLevel f))
  else inr (getNonHigherEdFee T (institutionType f)).

(** The second part: the regional fee for a national fee. *)
Definition regional_step (T : Tables) (f : Form) (national : number)
  : string + number :=
  if negb (String.eqb (institutionType f) "business-partner") then
    if empty (region f) then inl msg_region
    else inr (getRegionalFee T (region f) national)
  else inr zero.

Definition calculateFee (T : Tables) (d : Dom) : Dom :=
  match national_step T (form d) with
  | inl msg => alert msg d
  | inr national =>
      match regional_step T (form d) national with
      | inl msg => alert msg d
      | inr regional => show national regional (add national regional) d
      end
  end.

(** ** The table loader *)

(** A row of the file: the array of its cells, which [split] never leaves
    empty; [row[0]] is the first component and [row.slice(1)] the second. *)
Definition Row : Type := string * list string.

Definition cells (row : Row) : list string := row.1 :: row.2.

(** [row[1]], which is [undefined] in a row of one cell. *)
Definition cell1 (row : Row) : option string := head row.2.

(** [cell.replace(...).trim()] *)
Definition clean (cell : string) : string := Str.trim (Str.remove_quotes cell).

Definition parse_row (line : string) : Row :=
  let '(h, t) := Str.split ","%char line in (clean h, clean <$> t).

(** [data.split(newline).map(row => row.split(comma).map(...))] *)
Definition parse_rows (data : string) : list Row :=
  let '(h, t) := Str.split "010"%char data in parse_row <$> (h :: t).

(** [rows.findIndex(p)], which is [-1] when no row satisfies [p]. *)
Fixpoint findIndex (p : Row → bool) (rows : list Row) : Z :=
  match rows with
  | [] => -1
  | row :: rows' =>
      if p row then 0
      else let i := findIndex p rows' in if i =? -1 then -1 else i + 1
  end.

(** [rows[i]] for an integer [i]. *)
Definition at_index (rows : list Row) (i : Z) : option Row :=
  if i <? 0 then None else rows !! Z.to_nat i.

Definition is_header (header : string) (row : Row) : bool :=
  String.eqb row.1 header.

(** The test that ends a section: an array without cells, or with empty
    cells only. *)
Definition blank (row : Row) : bool :=
  (Z.of_nat (length (cells row)) =? 0)
  || forallb (fun cell => String.eqb cell "") (cells row).

(** The [for] loop of [parseSection], from its first index on. *)
Fixpoint section_rows (rows : list Row) : list Row :=
  match rows with
  | [] => []
  | row :: rows' => if blank row then [] else row :: section_rows rows'
  end.

Definition parseSection (rows : list Row) (header : string) : list Row :=
  let startIndex := findIndex (is_header header) rows in
  if startIndex =? -1 then []
  else section_rows (drop (Z.to_nat (startIndex + 1)) rows).

(** [rows.forEach(row => { m.set(row[0], f(row)) })] for a [Map], and
    [rows.forEach(row => { feeMatrix[row[0]] = f(row) })] for the arrays
    of the fee matrix. *)
Definition set_rows {V} (f : Row → V) (m : gmap string V) (rows : list Row)
  : gmap string V :=
  foldl (fun acc row => <[row.1 := f row]> acc) m rows.

(** [rows.forEach(row => { obj[row[0]] = f(row) })] for a plain object
    and numbers. *)
Definition put_rows {V} (f : Row → V) (obj : gmap string V) (rows : list Row)
  : gmap string V :=
  foldl (fun acc row => put row.1 (f row) acc) obj rows.

(** [fteOptions.reduce((acc, val, index) => { acc[val] = index; ... }, {})] *)
Definition index_map (options : list string) : gmap string nat :=
  (foldl (fun '(acc, index) val => (put val index acc, S index))
         (∅, O) options).1.

Definition hdr_fourYear : string := "Four-Year Institution Fees".
Definition hdr_twoYear : string := "Two-Year Institution Fees".
Definition hdr_nonHigherEd : string := "Non-Higher Education Fees".
Definition hdr_businessPartner : string := "Business Partner Fees".
Definition hdr_regional : string := "Regional Fee Multipliers".

Definition load_fourYear (rows : list Row) (T : Tables) : Tables :=
  let fourYearRows := parseSection rows hdr_fourYear in
  {| feeMatrix :=
       set_rows (fun row => (fun cell => Number (Some cell)) <$> row.2)
                (feeMatrix T) fourYearRows;
     gieOptions := (fun row => row.1) <$> fourYearRows;
     nonHigherEdFees := nonHigherEdFees T;
     businessPartnerFees := businessPartnerFees T;
     regionMultipliers := regionMultipliers T;
     fteOptions := fteOptions T;
     fteIndexMap := fteIndexMap T;
     twoYearGieOptions := twoYearGieOptions T;
     businessPartnerLevels := businessPartnerLevels T;
     regions := regions T |}.

(** The row read for the FTE labels: the one at [findIndex(...) + 1].
    Calling [slice] on [undefined] throws a [TypeError]: [None]. *)
Definition load_fte (rows : list Row) (T : Tables) : option Tables :=
  row ← at_index rows (findIndex (is_header hdr_fourYear) rows + 1);
  Some {| feeMatrix := feeMatrix T;
          gieOptions := gieOptions T;
          nonHigherEdFees := nonHigherEdFees T;
          businessPartnerFees := businessPartnerFees T;
          regionMultipliers := regionMultipliers T;
          fteOptions := row.2;
          fteIndexMap := index_map row.2;
          twoYearGieOptions := twoYearGieOptions T;
          businessPartnerLevels := businessPartnerLevels T;
          regions := regions T |}.

Definition flat_fee (row : Row) : number := Number (cell1 row).

Definition load_flat (rows : list Row) (T : Tables) : Tables :=
  let twoYearRows := parseSection rows hdr_twoYear in
  let nonHigherEdRows := parseSection rows hdr_nonHigherEd in
  let businessPartnerRows := parseSection rows hdr_businessPartner in
  let regionalMultiplierRows := parseSection rows hdr_regional in
  {| feeMatrix := feeMatrix T;
     gieOptions := gieOptions T;
     nonHigherEdFees := set_rows flat_fee (nonHigherEdFees T) nonHigherEdRows;
     businessPartnerFees :=
       set_rows flat_fee (businessPartnerFees T) businessPartnerRows;
     regionMultipliers :=
       put_rows flat_fee (regionMultipliers T) regionalMultiplierRows;
     fteOptions := fteOptions T;
     fteIndexMap := fteIndexMap T;
     twoYearGieOptions :=
       (fun row => {| value := row.1; fee := flat_fee row |}) <$> twoYearRows;
     businessPartnerLevels :=
       (fun row => {| opt_value := row.1; opt_label := Str.capitalize row.1 |})
         <$> businessPartnerRows;
     regions :=
       (fun row => {| opt_value := row.1; opt_label := Str.units row.1 |})
         <$> regionalMultiplierRows |}.

(** How the handler ends: it runs to its end, or the [TypeError] leaves
    the globals as the statements before it set them. *)
Inductive outcome :=
| Loaded (T : Tables)
| TypeError (T : Tables).

Definition globals (o : outcome) : Tables :=
  match o with Loaded T | TypeError T => T end.

(** The handler of the fetched text [data], run on the globals [T]. *)
Definition loadTables (data : string) (T : Tables) : outcome :=
  let rows := parse_rows data in
  let T1 := load_fourYear rows T in
  match load_fte rows T1 with
  | None => TypeError T1
  | Some T2 => Loaded (load_flat rows T2)
  end.

(** ** The dropdowns *)

(** A [select] element, as far as the script writes it. The elements are
    looked up by [id]; an [id] without element gives [null], and writing
    a property of [null] throws a [TypeError]: [None]. *)
Record Select := { innerHTML : list Z; disabled : bool }.

(** An element of an array given to [populateDropdown]: a string, or an
    object [{ value, label }]. *)
Inductive item :=
| Plain (s : string)
| Labelled (o : LabelledOption).

(** What a template literal makes of an object. *)
Definition object_Object : string := "[object Object]".

(** [option.value || option] inside the template: a string has no
    property [value]; an empty [value] of an object is falsy. *)
Definition item_value (i : item) : list Z :=
  match i with
  | Plain s => Str.units s
  | Labelled o =>
      Str.units (if empty (opt_value o) then object_Object else opt_value o)
  end.

(** [option.label || option] inside the template. *)
Definition item_label (i : item) : list Z :=
  match i with
  | Plain s => Str.units s
  | Labelled o =>
      match opt_label o with
      | [] => Str.units object_Object
      | label => label
      end
  end.

Definition option_markup (i : item) : list Z :=
  (Str.units "<option value=" ++ [34] ++ item_value i ++ [34]
   ++ Str.units ">" ++ item_label i ++ Str.units "</option>")%list.

(** [options.map(option => ...).join('')] *)
Definition options_markup (options : list item) : list Z :=
  concat (option_markup <$> options).

Definition set_innerHTML (id : string) (html : list Z)
    (doc : gmap string Select)
  : option (gmap string Select) :=
  dropdown ← doc !! id;
  Some (<[id := {| innerHTML := html; disabled := disabled dropdown |}]> doc).

(** [document.getElementById(id).disabled = b] *)
Definition set_disabled (id : string) (b : bool) (doc : gmap string Select)
  : option (gmap string Select) :=
  dropdown ← doc !! id;
  Some (<[id := {| innerHTML := innerHTML dropdown; disabled := b |}]> doc).

Definition populateDropdown (id : string) (options : list item)
    (doc : gmap string Select) : option (gmap string Select) :=
  set_innerHTML id (options_markup options) doc.

Definition clearDropdown (id : string) (doc : gmap string Select)
  : option (gmap string Select) :=
  set_innerHTML id [] doc.

(** [handleInstitutionTypeChange], for the value [type] of the
    institution-type control. *)
Definition handleInstitutionTypeChange (T : Tables) (type : string)
    (doc : gmap string Select) : option (gmap string Select) :=
  doc ← clearDropdown "fie" doc;
  doc ← clearDropdown "gie" doc;
  doc ← clearDropdown "gieTwoYear" doc;
  doc ← clearDropdown "businessLevel" doc;
  doc ← clearDropdown "region" doc;
  doc ← set_disabled "fie" true doc;
  doc ← set_disabled "gie" true doc;
  doc ← set_disabled "gieTwoYear" true doc;
  doc ← set_disabled "businessLevel" true doc;
  if String.eqb type "four-year" then
    doc ← set_disabled "fie" false doc;
    doc ← set_disabled "gie" false doc;
    doc ← populateDropdown "fie" (Plain <$> fteOptions T) doc;
    doc ← populateDropdown "gie" (Plain <$> gieOptions T) doc;
    doc ← set_disabled "region" false doc;
    populateDropdown "region" (Labelled <$> regions T) doc
  else if String.eqb type "two-year" then
    doc ← set_disabled "gieTwoYear" false doc;
    doc ← populateDropdown "gieTwoYear"
            ((fun o => Plain (value o)) <$> twoYearGieOptions T) doc;
    doc ← set_disabled "region" false doc;
    populateDropdown "region" (Labelled <$> regions T) doc
  else if String.eqb type "business-partner" then
    doc ← set_disabled "businessLevel" false doc;
    doc ← set_disabled "region" true doc;
    populateDropdown "businessLevel" (Labelled <$> businessPartnerLevels T) doc
  else
    doc ← set_disabled "region" false doc;
    populateDropdown "region" (Labelled <$> regions T) doc.

(** * Vocabulary of the properties *)

(** ** A sample file *)

Definition newline : string := String "010"%char EmptyString.

(** A file of five sections, each with a row of column titles. *)
Definition sample_csv : string :=
  String.concat newline
    [ "Four-Year Institution Fees";
      "GIE,Small,Large";
      "Low,100,200";
      "High,300,400";
      "";
      "Two-Year Institution Fees";
      "GIE,Fee";
      "Under 10M,250";
      "";
      "Non-Higher Education Fees";
      "Type,Fee";
      "k12,500";
      "";
      "Business Partner Fees";
      "Level,Fee";
      "gold,1000";
      "";
      "Regional Fee Multipliers";
      "Region,Multiplier";
      "R1,0.1";
      "" ].

Definition sample_tables : Tables := globals (loadTables sample_csv initial).

(** A one-line file without any section header. *)
Definition headless_csv : string := "APPA,Small,Large".

Definition n100 : number := of_Z false 100.
Definition n200 : number := of_Z false 200.
Definition n250 : number := of_Z false 250.

(** The multiplier 0.1 of region R1 in the sample file. *)
Definition tenth : number := of_decimal false 1 (-1).

(** ** Lookups *)

(** [o] is the first option of the list whose value is [label]. *)
Definition first_option (T : Tables) (label : string) (o : TwoYearOption)
  : Prop :=
  ∃ pre post,
    twoYearGieOptions T = (pre ++ o :: post)%list
    ∧ value o = label
    ∧ ∀ o', o' ∈ pre → value o' ≠ label.

(** ** Selections and messages *)

(** The selections that the form asks for. *)
Inductive field := FTE | GIE | GIE_two_year | BusinessLevel | Region.

Definition selection (f : Form) (x : field) : string :=
  match x with
  | FTE => fie f
  | GIE => gie f
  | GIE_two_year => gieTwoYear f
  | BusinessLevel => businessLevel f
  | Region => region f
  end.

(** The word by which a message names a field. *)
Definition field_name (x : field) : string :=
  match x with
  | FTE => "FTE"
  | GIE | GIE_two_year => "GIE"
  | BusinessLevel => "business level"
  | Region => "region"
  end.

(** The selections required for the chosen category. *)
Definition required (f : Form) : list field :=
  if String.eqb (institutionType f) "four-year" then [FTE; GIE; Region]
  else if String.eqb (institutionType f) "two-year" then [GIE_two_year; Region]
  else if String.eqb (institutionType f) "business-partner" then [BusinessLevel]
  else [Region].

Definition complete (f : Form) : Prop :=
  ∀ x, x ∈ required f → selection f x ≠ "".

Definition missing (f : Form) (x : field) : Prop :=
  x ∈ required f ∧ selection f x = "".

(** Case analysis on the category, as the chain of comparisons of
    [calculateFee] makes it. *)
Variant category (s : string) : Prop :=
| four_year : s = "four-year" → category s
| two_year : s = "two-year" → category s
| business_partner : s = "business-partner" → category s
| non_higher_ed :
    String.eqb s "four-year" = false → String.eqb s "two-year" = false →
    String.eqb s "business-partner" = false → category s.

(** The message that [calculateFee] shows when the selection [x] is the
    first one found empty. *)
Definition message (x : field) : string :=
  match x with
  | FTE | GIE => msg_fte_gie
  | GIE_two_year => msg_gie
  | BusinessLevel => msg_level
  | Region => msg_region
  end.

(** ** Rows of a section *)

(** No row has [header] as its first cell. *)
Definition header_absent (header : string) (rows : list Row) : Prop :=
  ∀ row, row ∈ rows → row.1 ≠ header.

(** The last row of [rows] whose first cell is [k]. *)
Fixpoint last_row (k : string) (rows : list Row) : option Row :=
  match rows with
  | [] => None
  | row :: rows' =>
      match last_row k rows' with
      | Some r => Some r
      | None => if String.eqb row.1 k then Some row else None
      end
  end.

(** ** Sample pages *)

Definition blank_results : Results :=
  {| nationalFee := Text ""; regionalFee := Text ""; totalFee := Text "" |}.

Definition page (f : Form) : Dom :=
  {| form := f; results := blank_results; alerts := [] |}.

Definition gold_partner : Form :=
  {| institutionType := "business-partner"; fie := ""; gie := "";
     gieTwoYear := ""; businessLevel := "gold"; region := "" |}.

(** A four-year form on which the region is still to be chosen. *)
Definition no_region : Form :=
  {| institutionType := "four-year"; fie := "Small"; gie := "Low";
     gieTwoYear := ""; businessLevel := ""; region := "" |}.



(** ** Dropdowns and text *)

(** The [id] of the dropdown of a selection. *)
Definition field_id (x : field) : string :=
  match x with
  | FTE => "fie"
  | GIE => "gie"
  | GIE_two_year => "gieTwoYear"
  | BusinessLevel => "businessLevel"
  | Region => "region"
  end.

(** The options that the script shows in the dropdown of a selection. *)
Definition options_of (T : Tables) (x : field) : list item :=
  match x with
  | FTE => Plain <$> fteOptions T
  | GIE => Plain <$> gieOptions T
  | GIE_two_year => (fun o => Plain (value o)) <$> twoYearGieOptions T
  | BusinessLevel => Labelled <$> businessPartnerLevels T
  | Region => Labelled <$> regions T
  end.

Definition is_required (f : Form) (x : field) : bool :=
  existsb (fun y => String.eqb (field_id y) (field_id x)) (required f).

(** The characters of a string. *)
Fixpoint chars (s : string) : list ascii :=
  match s with
  | EmptyString => []
  | String c s' => c :: chars s'
  end.

(** A cell as the loader leaves it: without double quote, comma and line
    feed, and without white space at either end. *)
Definition clean_cell (cell : string) : Prop :=
  ("034"%char ∉ chars cell) ∧ (","%char ∉ chars cell)
  ∧ ("010"%char ∉ chars cell) ∧ Str.trim cell = cell.

(** A number that is neither [NaN] nor an infinity. *)
Definition finite (x : number) : bool :=
  match x with
  | S754_zero _ | S754_finite _ _ _ => true
  | S754_nan | S754_infinity _ => false
  end.

(** A number with an integer value, or no finite value at all: the value
    of [S754_finite s m e] is [m * 2^e], up to the sign. *)
Definition whole (x : number) : Prop :=
  match x with
  | S754_finite _ m e => 0 ≤ e ∨ (2 ^ (- e) | Z.pos m)
  | _ => True
  end.

(** The integer that a string of decimal digits denotes. *)
Definition decimal_value (s : string) : Z :=
  fold_left (fun acc c => 10 * acc + (Str.code c - 48)) (chars s) 0.

(** The text of rows: cells joined by commas, rows by line feeds. *)
Definition unparse_row (row : Row) : string :=
  String.concat "," (cells row).

Definition unparse_rows (rows : list Row) : string :=
  String.concat newline (unparse_row <$> rows).

(** * Conversions on sample cells *)

Example Number_integer : Number (Some "250") = n250.
Proof. vm_compute. reflexivity. Qed.

Example Number_tenth :
  Number (Some "0.1") = S754_finite false 7205759403792794 (-56).
Proof. vm_compute. reflexivity. Qed.

Example Number_empty_cell : Number (Some "") = zero.
Proof. vm_compute. reflexivity. Qed.

Example Number_title : Number (Some "Multiplier") = NaN.
Proof. vm_compute. reflexivity. Qed.

Example Number_no_cell : Number (cell1 ("k12", [])) = NaN.
Proof. reflexivity. Qed.

Example Math_ceil_regional : Math_ceil (mul (of_Z false 105) tenth) = of_Z false 11.
Proof. vm_compute. reflexivity. Qed.

Example Math_ceil_minus_half :
  Math_ceil (Number (Some "-0.5")) = S754_zero true.
Proof. vm_compute. reflexivity. Qed.

Example capitalize_gold : Str.capitalize "gold" = Str.units "Gold".
Proof. reflexivity. Qed.

(** Upper-casing the sharp s (code unit 223) gives two letters. *)
Example capitalize_sharp_s :
  Str.capitalize (String (ascii_of_nat 223) "a") = [83; 83; 97].
Proof. reflexivity. Qed.

Example parse_row_quoted :
  parse_row (String "034" "k12" ++ String "034" " , 500 ") = ("k12", ["500"]).
Proof. vm_compute. reflexivity. Qed.

(** * Properties of the lookups *)

Section OrZero.

Lemma truthy_cases (n : number) :
  truthy n = false ↔ n = NaN ∨ ∃ s, n = S754_zero s.
Proof.
  split.
  - destruct n as [s|s| |s m e]; cbn; intros H; try discriminate H.
    + right. by exists s.
    + by left.
  - intros [-> | [s ->]]; reflexivity.
Qed.

Lemma or_zero_truthy (n : number) :
  truthy n = true → or_zero (Some n) = n.
Proof. cbn. by intros ->. Qed.

Lemma or_zero_falsy (n : number) :
  truthy n = false → or_zero (Some n) = zero.
Proof. cbn. by intros ->. Qed.

Lemma or_zero_not_NaN (v : option number) : or_zero v ≠ NaN.
Proof.
  destruct v as [n|]; cbn; [|discriminate].
  destruct n; cbn; discriminate.
Qed.

(** [x + 0] is [x] for every value that [... || 0] can give. *)
Lemma add_or_zero_zero (v : option number) :
  add (or_zero v) zero = or_zero v.
Proof.
  destruct v as [n|]; cbn; [|reflexivity].
  destruct n as [s|[]| |s m e]; reflexivity.
Qed.

Lemma index_or_zero_Some (i : nat) : index_or_zero (Some i) = i.
Proof. by destruct i. Qed.

Lemma get_Own {V} (obj : gmap string V) (key : string) (v : V) :
  obj !! key = Some v → get obj key = Own v.
Proof. intros H. unfold get. by rewrite H. Qed.

Lemma get_Member {V} (obj : gmap string V) (key : string) :
  obj !! key = None → inherited key = true → get obj key = Member.
Proof. intros H Hi. unfold get. by rewrite H, Hi. Qed.



End OrZero.

(** ** The four-year lookup *)

(** C1, as stated, fails: in the tables loaded from the sample file the row
    of column titles is a matrix row of [NaN] cells, and the lookup of the
    label pair ("Small", "GIE") gives 0 and not the stored [NaN]. *)
Lemma C1_counterexample :
  ¬ (∀ (fte gie : string) (i : nat) (row : list number) (cell : number),
        fteIndexMap sample_tables !! fte = Some i →
        feeMatrix sample_tables !! gie = Some row →
        row !! i = Some cell →
        getFourYearFee sample_tables fte gie = cell).
Proof.
  intros H.
  specialize (H "Small" "GIE" 0%nat [NaN; NaN] NaN).
  vm_compute in H.
  specialize (H eq_refl eq_refl eq_refl). discriminate H.
Qed.

(** C1, amended: for an FTE label that the index map sends to column [i]
    and a GIE label with row [row] in the matrix, [getFourYearFee] returns
    the cell [row[i]] when that cell is neither [NaN] nor a zero, and 0
    when the cell is [NaN] or a zero or when the row has no column [i]. *)
Theorem C1_getFourYearFee_present
    (T : Tables) (fte gie : string) (i : nat) (row : list number) :
  fteIndexMap T !! fte = Some i →
  feeMatrix T !! gie = Some row →
  (∀ cell, row !! i = Some cell → truthy cell = true →
           getFourYearFee T fte gie = cell)
  ∧ (∀ cell, row !! i = Some cell → (cell = NaN ∨ ∃ s, cell = S754_zero s) →
             getFourYearFee T fte gie = zero)
  ∧ (row !! i = None → getFourYearFee T fte gie = zero).
Proof.
  intros Hi Hrow. unfold getFourYearFee.
  rewrite (get_Own _ _ _ Hrow), (get_Own _ _ _ Hi).
  cbn [column mbind option_bind]. rewrite index_or_zero_Some.
  split; [|split].
  - intros cell -> Ht. by apply or_zero_truthy.
  - intros cell -> Hf. apply or_zero_falsy. by apply truthy_cases.
  - by intros ->.
Qed.

(** In the sample tables the pair ("Large", "Low") gives the cell 200. *)
Lemma C1_getFourYearFee_present_witness :
  getFourYearFee sample_tables "Large" "Low" = n200.
Proof.
  refine (proj1 (C1_getFourYearFee_present sample_tables "Large" "Low" 1%nat
                   [n100; n200] _ _) n200 _ _);
    vm_compute; reflexivity.
Defined.




(** C10: when the GIE row is present and the resolved column lies beyond
    the end of the row, or the cell there is [NaN] or a zero,
    [getFourYearFee] returns the number 0 (in particular not [NaN]); the
    lookup is a total function, so nothing is thrown, and a stored falsy
    cell gives the same result as an absent one. *)
Theorem C10_getFourYearFee_falsy_cell
    (T : Tables) (fte gie : string) (row : list number) :
  feeMatrix T !! gie = Some row →
  (let i := index_or_zero (fteIndexMap T !! fte) in
   (length row ≤ i)%nat ∨ row !! i = Some NaN
   ∨ ∃ s, row !! i = Some (S754_zero s)) →
  getFourYearFee T fte gie = zero ∧ getFourYearFee T fte gie ≠ NaN.
Proof.
  intros Hrow Hcell.
  split; [|unfold getFourYearFee; rewrite (get_Own _ _ _ Hrow);
           apply or_zero_not_NaN].
  unfold getFourYearFee. rewrite (get_Own _ _ _ Hrow). cbv zeta in *.
  unfold get. destruct (fteIndexMap T !! fte) as [i|];
    [|destruct (inherited fte); [reflexivity|]];
    cbn [column mbind option_bind];
    (destruct Hcell as [Hlen | [-> | [s ->]]]; [|reflexivity..]);
    by rewrite (lookup_ge_None_2 _ _ Hlen).
Qed.

(** The row of column titles holds [NaN] in column 0. *)
Lemma C10_getFourYearFee_falsy_cell_witness :
  getFourYearFee sample_tables "Small" "GIE" = zero
  ∧ getFourYearFee sample_tables "Small" "GIE" ≠ NaN.
Proof.
  apply (C10_getFourYearFee_falsy_cell sample_tables "Small" "GIE" [NaN; NaN]).
  - vm_compute; reflexivity.
  - right; left. vm_compute; reflexivity.
Defined.

(** ** The regional fee *)




(** ** The flat fees *)

Lemma find_option_first (T : Tables) (label : string) (o : TwoYearOption) :
  first_option T label o → find_option T label = Some o.
Proof.
  intros (pre & post & Heq & Hv & Hpre). unfold find_option. rewrite Heq.
  clear Heq. induction pre as [|p pre IH]; cbn.
  - by rewrite (proj2 (String.eqb_eq _ _) Hv).
  - destruct (String.eqb_spec (value p) label) as [Hp|_].
    + exfalso. apply (Hpre p); [left|done].
    + apply IH. intros o' Ho'. apply Hpre. by right.
Qed.

Lemma find_option_absent (T : Tables) (label : string) :
  (∀ o, o ∈ twoYearGieOptions T → value o ≠ label) →
  find_option T label = None.
Proof.
  unfold find_option. induction (twoYearGieOptions T) as [|p l IH]; cbn.
  - done.
  - intros H. destruct (String.eqb_spec (value p) label) as [Hp|_].
    + exfalso. apply (H p); [left|done].
    + apply IH. intros o Ho. apply H. by right.
Qed.

(** C3, as stated, fails on its second half: the sample tables store
    [NaN] as the non-higher-education fee of the label "Type", and
    [getNonHigherEdFee] returns 0 for it. *)
Lemma C3_counterexample :
  ¬ (∀ label : string,
        (nonHigherEdFees sample_tables !! label = None →
         getNonHigherEdFee sample_tables label = zero)
        ∧ (businessPartnerFees sample_tables !! label = None →
           getBusinessPartnerFee sample_tables label = zero)
        ∧ ((∀ o, o ∈ twoYearGieOptions sample_tables → value o ≠ label) →
           getTwoYearFee sample_tables label = zero)
        ∧ (∀ f, nonHigherEdFees sample_tables !! label = Some f →
                getNonHigherEdFee sample_tables label = f)
        ∧ (∀ f, businessPartnerFees sample_tables !! label = Some f →
                getBusinessPartnerFee sample_tables label = f)
        ∧ (∀ o, first_option sample_tables label o →
                getTwoYearFee sample_tables label = fee o)).
Proof.
  intros H. destruct (H "Type") as (_ & _ & _ & Hn & _).
  specialize (Hn NaN). vm_compute in Hn.
  specialize (Hn eq_refl). discriminate Hn.
Qed.

(** C3, amended: for a label not present in the corresponding table each
    of [getNonHigherEdFee], [getBusinessPartnerFee] and [getTwoYearFee]
    returns 0 (the functions are total: nothing is thrown); for a label
    that is present, [getTwoYearFee] returns the fee of the first option
    with that label, whatever it is, while [getNonHigherEdFee] and
    [getBusinessPartnerFee] return the stored fee when it is neither [NaN]
    nor a zero, and 0 when it is. *)
Theorem C3_flat_fees (T : Tables) (label : string) :
  (nonHigherEdFees T !! label = None → getNonHigherEdFee T label = zero)
  ∧ (businessPartnerFees T !! label = None →
     getBusinessPartnerFee T label = zero)
  ∧ ((∀ o, o ∈ twoYearGieOptions T → value o ≠ label) →
     getTwoYearFee T label = zero)
  ∧ (∀ f, nonHigherEdFees T !! label = Some f →
          getNonHigherEdFee T label = if truthy f then f else zero)
  ∧ (∀ f, businessPartnerFees T !! label = Some f →
          getBusinessPartnerFee T label = if truthy f then f else zero)
  ∧ (∀ o, first_option T label o → getTwoYearFee T label = fee o).
Proof.
  unfold getNonHigherEdFee, getBusinessPartnerFee, getTwoYearFee.
  repeat split.
  - by intros ->.
  - by intros ->.
  - intros H. by rewrite find_option_absent.
  - by intros f ->.
  - by intros f ->.
  - intros o Ho. by rewrite (find_option_first _ _ _ Ho).
Qed.

(** One absent label, one stored fee, one first option. *)
Lemma C3_flat_fees_witness :
  getNonHigherEdFee sample_tables "museum" = zero
  ∧ getBusinessPartnerFee sample_tables "gold" = of_Z false 1000
  ∧ getTwoYearFee sample_tables "Under 10M" = n250.
Proof.
  split; [|split].
  - refine (proj1 (C3_flat_fees sample_tables "museum") _).
    vm_compute; reflexivity.
  - refine (proj1 (proj2 (proj2 (proj2 (proj2
              (C3_flat_fees sample_tables "gold")))))
              (of_Z false 1000) _).
    vm_compute; reflexivity.
  - refine (proj2 (proj2 (proj2 (proj2 (proj2
              (C3_flat_fees sample_tables "Under 10M")))))
              {| value := "Under 10M"; fee := n250 |} _).
    exists [ {| value := "GIE"; fee := NaN |} ], [].
    split; [vm_compute; reflexivity|]. split; [reflexivity|].
    intros o' Ho'. apply list_elem_of_singleton in Ho'. subst o'.
    cbn. discriminate.
Defined.

(** * Properties of [calculateFee] *)

Lemma empty_true (s : string) : empty s = true ↔ s = "".
Proof. apply String.eqb_eq. Qed.

Lemma empty_false (s : string) : empty s = false ↔ s ≠ "".
Proof. apply String.eqb_neq. Qed.

Lemma category_of (s : string) : category s.
Proof.
  destruct (String.eqb_spec s "four-year"); [by apply four_year|].
  destruct (String.eqb_spec s "two-year"); [by apply two_year|].
  destruct (String.eqb_spec s "business-partner"); [by apply business_partner|].
  apply non_higher_ed; by apply String.eqb_neq.
Qed.

Ltac by_category f :=
  let H := fresh "Hty" in
  let H1 := fresh "Hty" in
  let H2 := fresh "Hty" in
  destruct (category_of (institutionType f)) as [H|H|H|H H1 H2];
  unfold complete, missing in *;
  unfold calculateFee, national_step, regional_step, required in *;
  [ rewrite H in *; cbn [String.eqb Ascii.eqb Bool.eqb negb] in *
  | rewrite H in *; cbn [String.eqb Ascii.eqb Bool.eqb negb] in *
  | rewrite H in *; cbn [String.eqb Ascii.eqb Bool.eqb negb] in *
  | rewrite ?H, ?H1, ?H2 in *; cbn [negb] in * ].

(** Membership in a list that is written out. *)
Ltac in_list := apply list_elem_of_In; cbn; auto 10.

(** Use the fact that the required selection [x] is made. *)
Ltac selected Hsel x :=
  let H := fresh "Hx" in
  assert (H := Hsel x ltac:(in_list));
  cbn [selection] in H; rewrite H; clear H.

(** C5: with every required selection made, [calculateFee] takes the
    national fee from the lookup of the category (four-year, two-year,
    business-partner, otherwise non-higher-education), writes it into the
    result elements with the regional fee and their sum as the total, and
    shows no alert; for the business-partner category the regional fee is
    0 and the total is the national fee. *)
Theorem C5_calculateFee_complete (T : Tables) (d : Dom) :
  complete (form d) →
  let f := form d in
  ∃ national regional : number,
    results (calculateFee T d)
    = {| nationalFee := Fixed2 "National Fee: $" national;
         regionalFee := Fixed2 "Regional Fee: $" regional;
         totalFee := Fixed2 "Total Fee: $" (add national regional) |}
    ∧ alerts (calculateFee T d) = alerts d
    ∧ form (calculateFee T d) = f
    ∧ (institutionType f = "four-year" →
       national = getFourYearFee T (fie f) (gie f))
    ∧ (institutionType f = "two-year" →
       national = getTwoYearFee T (gieTwoYear f))
    ∧ (institutionType f = "business-partner" →
       national = getBusinessPartnerFee T (businessLevel f)
       ∧ regional = zero ∧ add national regional = national)
    ∧ (institutionType f ≠ "four-year" → institutionType f ≠ "two-year" →
       institutionType f ≠ "business-partner" →
       national = getNonHigherEdFee T (institutionType f))
    ∧ (institutionType f ≠ "business-partner" →
       regional = getRegionalFee T (region f) national).
Proof.
  intros Hc f. subst f.
  assert (Hsel : ∀ x, x ∈ required (form d) →
                      empty (selection (form d) x) = false).
  { intros x Hx. apply empty_false. by apply Hc. }
  clear Hc. by_category (form d).
  - selected Hsel FTE. selected Hsel GIE. selected Hsel Region. cbn.
    eexists _, _. split; [reflexivity|]. repeat split; try done.
  - selected Hsel GIE_two_year. selected Hsel Region. cbn.
    eexists _, _. split; [reflexivity|]. repeat split; try done.
  - selected Hsel BusinessLevel. cbn.
    eexists _, _. split; [reflexivity|]. repeat split; try done.
    apply add_or_zero_zero.
  - selected Hsel Region. cbn.
    eexists _, _. split; [reflexivity|].
    repeat apply conj; try done; intros He; rewrite He in *; discriminate.
Qed.

(** A business partner of level "gold": no region is asked for. *)
Lemma C5_calculateFee_complete_witness :
  ∃ national regional : number,
    results (calculateFee sample_tables (page gold_partner))
    = {| nationalFee := Fixed2 "National Fee: $" national;
         regionalFee := Fixed2 "Regional Fee: $" regional;
         totalFee := Fixed2 "Total Fee: $" (add national regional) |}
    ∧ alerts (calculateFee sample_tables (page gold_partner)) = []
    ∧ national = getBusinessPartnerFee sample_tables "gold"
    ∧ regional = zero ∧ add national regional = national.
Proof.
  destruct (C5_calculateFee_complete sample_tables (page gold_partner))
    as (national & regional & Hres & Hal & _ & _ & _ & Hbp & _).
  - intros x Hx. apply list_elem_of_singleton in Hx. subst x. discriminate.
  - exists national, regional. split; [exact Hres|]. split; [exact Hal|].
    by apply Hbp.
Defined.

Lemma message_names_field (x : field) :
  Str.includes (field_name x) (message x) = true.
Proof. destruct x; vm_compute; reflexivity. Qed.

Lemma missing_empty (f : Form) (x : field) :
  selection f x = "" → empty (selection f x) = true.
Proof. apply empty_true. Qed.

(** C6, as stated, fails on its middle part: on the sample page
    [no_region] the region is required and empty, and yet a fee is
    computed: the national fee 100 of the four-year lookup, before the
    region is looked at. *)
Lemma C6_counterexample :
  ¬ (∀ (d : Dom) (x : field),
        missing (form d) x →
        (∃ y, missing (form d) y
              ∧ alerts (calculateFee sample_tables d)
                = (alerts d ++ [message y])%list)
        ∧ results (calculateFee sample_tables d) = results d
        ∧ ∀ national, national_step sample_tables (form d) ≠ inr national).
Proof.
  intros H.
  destruct (H (page no_region) Region) as (_ & _ & Hno).
  - split; [|reflexivity]. unfold required. cbn. in_list.
  - apply (Hno n100). vm_compute. reflexivity.
Qed.

(** C6, amended: when a selection required for the chosen category is
    empty, [calculateFee] shows one alert, whose message names a required
    selection that is empty, and returns: the three result elements keep
    their content. When the selection that the alert names is the FTE,
    the GIE or the business level, no fee has been computed; when it is
    the region, the national fee has been computed before and is
    dropped. *)
Theorem C6_calculateFee_missing (T : Tables) (d : Dom) (x : field) :
  missing (form d) x →
  ∃ y : field,
    missing (form d) y
    ∧ calculateFee T d = alert (message y) d
    ∧ Str.includes (field_name y) (message y) = true
    ∧ results (calculateFee T d) = results d
    ∧ alerts (calculateFee T d) = (alerts d ++ [message y])%list
    ∧ form (calculateFee T d) = form d
    ∧ (y ≠ Region → national_step T (form d) = inl (message y))
    ∧ (y = Region →
       ∃ national, national_step T (form d) = inr national
                   ∧ regional_step T (form d) national = inl (message y)).
Proof.
  intros [Hreq Hempty].
  cut (∃ y, missing (form d) y
            ∧ calculateFee T d = alert (message y) d
            ∧ (y ≠ Region → national_step T (form d) = inl (message y))
            ∧ (y = Region →
               ∃ national,
                 national_step T (form d) = inr national
                 ∧ regional_step T (form d) national = inl (message y))).
  { intros (y & Hy & Hc & Hn & Hr). exists y. rewrite Hc.
    split; [done|]. split; [done|]. split; [apply message_names_field|].
    repeat split; done. }
  apply missing_empty in Hempty.
  by_category (form d).
  - destruct (empty (fie (form d))) eqn:Hf.
    { exists FTE. cbn. apply empty_true in Hf. split; [|by repeat split].
      split; [in_list|done]. }
    destruct (empty (gie (form d))) eqn:Hg.
    { exists GIE. cbn. apply empty_true in Hg. split; [|by repeat split].
      split; [in_list|done]. }
    cbn. assert (Hr : empty (region (form d)) = true).
    { apply list_elem_of_In in Hreq.
      destruct Hreq as [<-|[<-|[<-|[]]]]; cbn [selection] in Hempty; congruence. }
    rewrite Hr. exists Region. split; [|split; [done|split; [done|eauto]]].
    split; [in_list|]. by apply empty_true.
  - destruct (empty (gieTwoYear (form d))) eqn:Hg.
    { exists GIE_two_year. apply empty_true in Hg.
      split; [|by repeat split]. split; [in_list|done]. }
    assert (Hr : empty (region (form d)) = true).
    { apply list_elem_of_In in Hreq.
      destruct Hreq as [<-|[<-|[]]]; cbn [selection] in Hempty; congruence. }
    rewrite Hr. exists Region. split; [|split; [done|split; [done|eauto]]].
    split; [in_list|]. by apply empty_true.
  - assert (Hl : empty (businessLevel (form d)) = true).
    { apply list_elem_of_In in Hreq.
      destruct Hreq as [<-|[]]; cbn [selection] in Hempty; congruence. }
    rewrite Hl. exists BusinessLevel. split; [|by repeat split].
    split; [in_list|]. by apply empty_true.
  - assert (Hr : empty (region (form d)) = true).
    { apply list_elem_of_In in Hreq.
      destruct Hreq as [<-|[]]; cbn [selection] in Hempty; congruence. }
    rewrite Hr. exists Region. split; [|split; [done|split; [done|eauto]]].
    split; [in_list|]. by apply empty_true.
Qed.

(** A four-year page without region: the alert for the region, the
    results untouched, the national fee 100 computed and dropped. *)
Lemma C6_calculateFee_missing_witness :
  ∃ y : field,
    missing no_region y
    ∧ calculateFee sample_tables (page no_region)
      = alert (message y) (page no_region)
    ∧ Str.includes (field_name y) (message y) = true
    ∧ results (calculateFee sample_tables (page no_region)) = blank_results
    ∧ alerts (calculateFee sample_tables (page no_region)) = [message y]
    ∧ national_step sample_tables no_region = inr n100.
Proof.
  destruct (C6_calculateFee_missing sample_tables (page no_region) Region)
    as (y & Hy & Hc & Hname & Hres & Hal & _ & Hn & Hr).
  - split; [|reflexivity]. unfold required. cbn. in_list.
  - exists y. repeat (split; [assumption|]).
    vm_compute. reflexivity.
Defined.

(** * Properties of the loader *)

(** ** Rows and sections *)

(** The text always splits into at least one row. *)
Lemma parse_rows_first (data : string) :
  ∃ row rows', parse_rows data = row :: rows'.
Proof.
  unfold parse_rows. destruct (Str.split _ data) as [h t]. cbn. eauto.
Qed.

Lemma findIndex_range (p : Row → bool) (rows : list Row) :
  findIndex p rows = -1
  ∨ 0 ≤ findIndex p rows < Z.of_nat (length rows).
Proof.
  induction rows as [|row rows IH]; cbn [findIndex length]; [by left|].
  destruct (p row); [right; lia|].
  destruct (Z.eqb_spec (findIndex p rows) (-1)); [by left|right; lia].
Qed.

Lemma findIndex_absent (header : string) (rows : list Row) :
  header_absent header rows ↔ findIndex (is_header header) rows = -1.
Proof.
  unfold header_absent.
  induction rows as [|row rows IH]; cbn [findIndex].
  - split; [done|]. intros _ row Hrow. by apply not_elem_of_nil in Hrow.
  - unfold is_header at 1.
    destruct (String.eqb_spec row.1 header) as [Heq|Hne].
    + split; [|done]. intros H. exfalso. apply (H row); [left|done].
    + destruct (Z.eqb_spec (findIndex (is_header header) rows) (-1))
        as [Hi|Hi].
      * split; [done|]. intros _ r Hr.
        apply elem_of_cons in Hr as [->|Hr]; [done|].
        by apply IH.
      * split.
        -- intros H. exfalso. apply Hi, IH. intros r Hr. apply H. by right.
        -- pose proof (findIndex_range (is_header header) rows). lia.
Qed.

(** [parseSection] returns the empty array for an absent header. *)
Lemma parseSection_absent (header : string) (rows : list Row) :
  header_absent header rows → parseSection rows header = [].
Proof.
  intros H. apply findIndex_absent in H. unfold parseSection. by rewrite H.
Qed.

(** ** Assignments by key *)

Section SetRows.
Context {V : Type} (f : Row → V).

Lemma set_rows_lookup (m : gmap string V) (rows : list Row) (k : string) :
  set_rows f m rows !! k
  = match last_row k rows with
    | Some row => Some (f row)
    | None => m !! k
    end.
Proof.
  revert m. induction rows as [|row rows IH]; intros m; [done|].
  cbn [last_row]. change (set_rows f m (row :: rows))
    with (set_rows f (<[row.1 := f row]> m) rows).
  rewrite IH. destruct (last_row k rows); [done|].
  destruct (String.eqb_spec row.1 k) as [->|Hne].
  - apply lookup_insert_eq.
  - by apply lookup_insert_ne.
Qed.

(** Making the same assignments again changes nothing. *)
Lemma set_rows_again (m : gmap string V) (rows : list Row) :
  set_rows f (set_rows f m rows) rows = set_rows f m rows.
Proof.
  apply map_eq. intros k. rewrite !set_rows_lookup.
  by destruct (last_row k rows).
Qed.

(** Assignments to a plain object. *)
Lemma put_lookup_ne (key j : string) (v : V) (m : gmap string V) :
  key ≠ j → put key v m !! j = m !! j.
Proof.
  intros Hne. unfold put.
  destruct (m !! key); [by apply lookup_insert_ne|].
  destruct (String.eqb key "__proto__"); [done|by apply lookup_insert_ne].
Qed.

Lemma put_lookup_eq (key : string) (v : V) (m : gmap string V) :
  key ≠ "__proto__" → put key v m !! key = Some v.
Proof.
  intros Hne. unfold put.
  destruct (m !! key); [apply lookup_insert_eq|].
  destruct (String.eqb_spec key "__proto__"); [done|apply lookup_insert_eq].
Qed.

(** No assignment creates an own property [__proto__]. *)
Lemma put_proto (key : string) (v : V) (m : gmap string V) :
  m !! "__proto__" = None → put key v m !! "__proto__" = None.
Proof.
  intros Hm. unfold put. destruct (m !! key) eqn:Hk.
  - rewrite lookup_insert_ne; [done|]. intros ->. congruence.
  - destruct (String.eqb_spec key "__proto__"); [done|].
    by rewrite lookup_insert_ne.
Qed.

Lemma put_rows_proto (m : gmap string V) (rows : list Row) :
  m !! "__proto__" = None → put_rows f m rows !! "__proto__" = None.
Proof.
  revert m. induction rows as [|row rows IH]; intros m Hm; [done|].
  change (put_rows f m (row :: rows))
    with (put_rows f (put row.1 (f row) m) rows).
  by apply IH, put_proto.
Qed.

Lemma put_rows_lookup (m : gmap string V) (rows : list Row) (k : string) :
  k ≠ "__proto__" →
  put_rows f m rows !! k
  = match last_row k rows with
    | Some row => Some (f row)
    | None => m !! k
    end.
Proof.
  intros Hk. revert m. induction rows as [|row rows IH]; intros m; [done|].
  cbn [last_row]. change (put_rows f m (row :: rows))
    with (put_rows f (put row.1 (f row) m) rows).
  rewrite IH. destruct (last_row k rows); [done|].
  destruct (String.eqb_spec row.1 k) as [->|Hne].
  - by apply put_lookup_eq.
  - by apply put_lookup_ne.
Qed.

(** On an object that has an own property [__proto__] the assignments are
    those of a map. *)
Lemma put_rows_own (m : gmap string V) (rows : list Row) :
  is_Some (m !! "__proto__") → put_rows f m rows = set_rows f m rows.
Proof.
  revert m. induction rows as [|row rows IH]; intros m Hm; [done|].
  change (put_rows f m (row :: rows))
    with (put_rows f (put row.1 (f row) m) rows).
  change (set_rows f m (row :: rows))
    with (set_rows f (<[row.1 := f row]> m) rows).
  assert (Hput : put row.1 (f row) m = <[row.1 := f row]> m).
  { unfold put. destruct (m !! row.1) eqn:Hr; [done|].
    destruct (String.eqb_spec row.1 "__proto__") as [He|]; [|done].
    rewrite He in Hr. rewrite Hr in Hm. by destruct Hm. }
  rewrite Hput. apply IH.
  destruct (decide (row.1 = "__proto__")) as [->|Hne].
  - rewrite lookup_insert_eq. eauto.
  - by rewrite lookup_insert_ne.
Qed.

Lemma put_rows_again (m : gmap string V) (rows : list Row) :
  put_rows f (put_rows f m rows) rows = put_rows f m rows.
Proof.
  destruct (m !! "__proto__") as [v|] eqn:Hm.
  - rewrite (put_rows_own m) by eauto.
    rewrite put_rows_own; [apply set_rows_again|].
    rewrite set_rows_lookup. destruct (last_row _ rows); rewrite ?Hm; eauto.
  - apply map_eq. intros k. destruct (decide (k = "__proto__")) as [->|Hk].
    + rewrite !put_rows_proto; [done..|]. by apply put_rows_proto.
    + rewrite !put_rows_lookup by done. by destruct (last_row k rows).
Qed.

End SetRows.

(** ** An absent section header *)

(** For the sections read through [parseSection] an absent header leaves
    every structure of the section empty. *)
Lemma absent_header_flat (data : string) (T : Tables) :
  loadTables data initial = Loaded T →
  let rows := parse_rows data in
  (header_absent hdr_fourYear rows → feeMatrix T = ∅ ∧ gieOptions T = [])
  ∧ (header_absent hdr_twoYear rows → twoYearGieOptions T = [])
  ∧ (header_absent hdr_nonHigherEd rows → nonHigherEdFees T = ∅)
  ∧ (header_absent hdr_businessPartner rows →
     businessPartnerFees T = ∅ ∧ businessPartnerLevels T = [])
  ∧ (header_absent hdr_regional rows →
     regionMultipliers T = ∅ ∧ regions T = []).
Proof.
  unfold loadTables.
  destruct (load_fte _ _) as [T2|] eqn:Hfte; [|discriminate].
  intros [= <-]. unfold load_fte in Hfte.
  destruct (at_index _ _) as [row|]; [|discriminate].
  injection Hfte as <-. cbn.
  repeat apply conj; intros H; rewrite (parseSection_absent _ _ H); done.
Qed.

(** With the four-year header absent the handler still runs to its end,
    and takes the FTE labels from the first row of the file. *)
Lemma absent_header_fte (data : string) :
  header_absent hdr_fourYear (parse_rows data) →
  ∃ T row rows',
    parse_rows data = row :: rows'
    ∧ loadTables data initial = Loaded T
    ∧ fteOptions T = row.2
    ∧ fteIndexMap T = index_map row.2.
Proof.
  intros H. destruct (parse_rows_first data) as (row & rows' & Hrows).
  unfold loadTables, load_fte. apply findIndex_absent in H. rewrite H.
  rewrite Hrows. cbn. eauto 10.
Qed.

(** C7 does not hold of the code: a text without the four-year header
    whose first line has several cells is loaded without an error, the
    fee matrix and the GIE options are empty, but the FTE option list and
    the FTE index map are filled from that first line. *)
Theorem C7_fte_not_empty :
  header_absent hdr_fourYear (parse_rows headless_csv)
  ∧ ∃ T, loadTables headless_csv initial = Loaded T
         ∧ feeMatrix T = ∅ ∧ gieOptions T = []
         ∧ fteOptions T = ["Small"; "Large"]
         ∧ fteIndexMap T = {[ "Small" := 0%nat; "Large" := 1%nat ]}.
Proof.
  split.
  - apply findIndex_absent. vm_compute. reflexivity.
  - eexists. split; [vm_compute; reflexivity|].
    repeat split; vm_compute; reflexivity.
Qed.

(** ** Loading twice *)

(** C9: running the handler again on the same text, on the globals that
    the first run left, ends the same way with the same globals: the fee
    matrix, the FTE index map, the two-year options, the non-higher-ed
    fees, the business-partner fees and the region multipliers (and the
    option lists) are those of the first run. Two runs from equal globals
    agree because [loadTables] is a function. *)
Theorem C9_load_twice (data : string) (T : Tables) :
  loadTables data (globals (loadTables data T)) = loadTables data T.
Proof.
  unfold loadTables, load_fte.
  destruct (at_index _ _) as [row|]; cbn.
  - f_equal. unfold load_flat, load_fourYear. cbn.
    by rewrite !set_rows_again, put_rows_again.
  - f_equal. unfold load_fourYear. cbn. by rewrite set_rows_again.
Qed.

(** ** Cells that are not numbers *)

(** What a completed run leaves in the tables, section by section. *)
Lemma loadTables_Loaded (data : string) (T0 T : Tables) :
  loadTables data T0 = Loaded T →
  let rows := parse_rows data in
  feeMatrix T
  = set_rows (fun row => (fun cell => Number (Some cell)) <$> row.2)
             (feeMatrix T0) (parseSection rows hdr_fourYear)
  ∧ twoYearGieOptions T
    = (fun row => {| value := row.1; fee := flat_fee row |})
        <$> parseSection rows hdr_twoYear
  ∧ nonHigherEdFees T
    = set_rows flat_fee (nonHigherEdFees T0) (parseSection rows hdr_nonHigherEd)
  ∧ businessPartnerFees T
    = set_rows flat_fee (businessPartnerFees T0)
               (parseSection rows hdr_businessPartner)
  ∧ regionMultipliers T
    = put_rows flat_fee (regionMultipliers T0) (parseSection rows hdr_regional).
Proof.
  unfold loadTables, load_fte.
  destruct (at_index _ _) as [row|]; cbn; [|discriminate].
  intros [= <-]. cbn. done.
Qed.

Lemma find_two_year (label : string) (rows : list Row) :
  List.find (fun o => String.eqb (value o) label)
            ((fun row => {| value := row.1; fee := flat_fee row |}) <$> rows)
  = (fun row => {| value := row.1; fee := flat_fee row |})
      <$> List.find (is_header label) rows.
Proof.
  induction rows as [|row rows IH]; [done|]. cbn.
  unfold is_header at 1. by destruct (String.eqb row.1 label).
Qed.




(** * Further properties *)

(** ** Results that are numbers *)

#[local] Set Warnings "-clear-no-such-hyp".

Section NoNaN.

Lemma shr_1_nonneg (mrs : shr_record) :
  0 ≤ shr_m mrs → 0 ≤ shr_m (shr_1 mrs).
Proof.
  destruct mrs as [m r s]. cbn.
  destruct m as [|[p|p|]|[p|p|]]; cbn; lia.
Qed.

Lemma iter_shr_1_nonneg (p : positive) (mrs : shr_record) :
  0 ≤ shr_m mrs → 0 ≤ shr_m (SpecFloat.iter_pos shr_1 p mrs).
Proof.
  revert mrs. induction p as [p IH|p IH|]; intros mrs H; cbn.
  - apply IH, IH. by apply shr_1_nonneg.
  - by apply IH, IH.
  - by apply shr_1_nonneg.
Qed.

Lemma shr_fexp_nonneg (m e : Z) (l : location) :
  0 ≤ m → 0 ≤ shr_m (shr_fexp prec emax m e l).1.
Proof.
  intros H. unfold shr_fexp, shr.
  assert (H0 : 0 ≤ shr_m (shr_record_of_loc m l)).
  { destruct l as [|[]]; exact H. }
  destruct (_ - e); cbn; [done| |done].
  by apply iter_shr_1_nonneg.
Qed.

Lemma round_nearest_even_nonneg (m : Z) (l : location) :
  0 ≤ m → 0 ≤ round_nearest_even m l.
Proof.
  intros H. destruct l as [|[]]; cbn; try lia.
  destruct (Z.even m); lia.
Qed.

(** Rounding a mantissa that is not negative never gives [NaN]. *)
Lemma binary_round_aux_not_NaN (s : bool) (m e : Z) (l : location) :
  0 ≤ m → binary_round_aux prec emax s m e l ≠ NaN.
Proof.
  intros H. unfold binary_round_aux.
  pose proof (shr_fexp_nonneg m e l H) as H1.
  destruct (shr_fexp prec emax m e l) as [mrs' e']. cbn in H1.
  pose proof (shr_fexp_nonneg _ e' loc_Exact
                (round_nearest_even_nonneg _ (loc_of_shr_record mrs') H1)) as H2.
  destruct (shr_fexp prec emax _ e' loc_Exact) as [mrs'' e'']. cbn in H2.
  destruct (shr_m mrs'') as [|p|p]; [discriminate| |lia].
  destruct (e'' <=? emax - prec); discriminate.
Qed.

Lemma of_Z_not_NaN (s : bool) (z : Z) : of_Z s z ≠ NaN.
Proof.
  unfold of_Z, binary_normalize, binary_round.
  destruct z as [|p|p]; [discriminate| |];
    destruct (shl_align _ _ _) as [mz ez];
    by apply binary_round_aux_not_NaN.
Qed.

Lemma Math_ceil_not_NaN (x : number) : x ≠ NaN → Math_ceil x ≠ NaN.
Proof.
  destruct x as [s|s| |s m e]; cbn; try done.
  intros _. destruct (0 <=? e); [discriminate|]. apply of_Z_not_NaN.
Qed.

Lemma Math_ceil_NaN_iff (x : number) : Math_ceil x = NaN ↔ x = NaN.
Proof.
  split; [|by intros ->].
  destruct x as [s|s| |s m e]; try done.
  intros H. by apply Math_ceil_not_NaN in H.
Qed.

(** A product is [NaN] only for a [NaN] factor or for zero times
    infinity. *)
Lemma mul_NaN_iff (x y : number) :
  mul x y = NaN
  ↔ x = NaN ∨ y = NaN
    ∨ ((∃ s, x = S754_infinity s) ∧ ∃ s, y = S754_zero s)
    ∨ ((∃ s, x = S754_zero s) ∧ ∃ s, y = S754_infinity s).
Proof.
  destruct x as [sx|sx| |sx mx ex], y as [sy|sy| |sy my ey]; cbn;
    try (split; [discriminate|naive_solver]);
    try (split; [naive_solver|done]).
  split; [|naive_solver].
  intros H. by apply binary_round_aux_not_NaN in H.
Qed.

Lemma mul_not_NaN (x y : number) :
  finite x = true → finite y = true → mul x y ≠ NaN.
Proof.
  destruct x as [sx|sx| |sx mx ex], y as [sy|sy| |sy my ey];
    cbn; try discriminate.
  intros _ _. by apply binary_round_aux_not_NaN.
Qed.

Lemma add_finite_not_NaN (x y : number) :
  finite x = true → y ≠ NaN → add x y ≠ NaN.
Proof.
  destruct x as [sx|sx| |sx mx ex], y as [sy|sy| |sy my ey];
    cbn; try discriminate; try done.
  - intros _ _. destruct sx, sy; discriminate.
  - intros _ _. unfold binary_normalize, binary_round.
    destruct (_ + _) as [|p|p]; [discriminate| |];
      destruct (shl_align _ _ _) as [mz ez];
      by apply binary_round_aux_not_NaN.
Qed.

Lemma or_zero_finite (v : option number) :
  (∀ n, v = Some n → n ≠ S754_infinity false ∧ n ≠ S754_infinity true) →
  finite (or_zero v) = true.
Proof.
  destruct v as [[s|[]| |s m e]|]; cbn; try done; intros H;
    destruct (H _ eq_refl); done.
Qed.

End NoNaN.

(** X1: the regional fee is [NaN] in four cases only: the base fee is
    [NaN]; the region is no entry of the table but a member name of
    [Object.prototype]; the base fee is an infinity and the multiplier
    used is 0 (the region is no entry and no such member name, or its
    stored multiplier is [NaN] or a zero); the base fee is a zero and the
    stored multiplier is an infinity. *)
Theorem getRegionalFee_NaN_iff (T : Tables) (region : string) (baseFee : number) :
  getRegionalFee T region baseFee = NaN
  ↔ baseFee = NaN
    ∨ (regionMultipliers T !! region = None ∧ inherited region = true)
    ∨ ((∃ s, baseFee = S754_infinity s)
       ∧ ((regionMultipliers T !! region = None ∧ inherited region = false)
          ∨ ∃ m, regionMultipliers T !! region = Some m ∧ truthy m = false))
    ∨ ((∃ s, baseFee = S754_zero s)
       ∧ ∃ s, regionMultipliers T !! region = Some (S754_infinity s)).
Proof.
  unfold getRegionalFee, get. rewrite Math_ceil_NaN_iff, mul_NaN_iff.
  destruct (regionMultipliers T !! region) as [[sy|sy| |sy my ey]|];
    [..|destruct (inherited region)];
    cbn [factor_or_zero or_zero truthy]; unfold zero; naive_solver.
Qed.

(** X2: for a business partner with a level selected, none of the three
    numbers that [calculateFee] shows is [NaN], whatever the tables
    hold; they are the numbers written into the three result elements,
    and no alert is shown. *)
Theorem business_partner_not_NaN (T : Tables) (d : Dom) :
  institutionType (form d) = "business-partner" →
  businessLevel (form d) ≠ "" →
  ∃ national regional total,
    calculateFee T d = show national regional total d
    ∧ national ≠ NaN ∧ regional ≠ NaN ∧ total ≠ NaN
    ∧ results (calculateFee T d)
      = {| nationalFee := Fixed2 "National Fee: $" national;
           regionalFee := Fixed2 "Regional Fee: $" regional;
           totalFee := Fixed2 "Total Fee: $" total |}
    ∧ alerts (calculateFee T d) = alerts d.
Proof.
  intros Hty Hsel. apply empty_false in Hsel.
  unfold calculateFee, national_step, regional_step.
  rewrite Hty. cbn [String.eqb Ascii.eqb Bool.eqb negb]. rewrite Hsel.
  eexists _, _, _. split; [reflexivity|].
  split; [apply or_zero_not_NaN|]. split; [discriminate|].
  split; [|split; reflexivity].
  unfold getBusinessPartnerFee. rewrite add_or_zero_zero.
  apply or_zero_not_NaN.
Qed.

(** X3: with all required selections made, a national fee that is finite
    and a region that is an entry of the table with a multiplier that is
    not an infinity, or else no member name of [Object.prototype], none
    of the three numbers that [calculateFee] writes is [NaN]. *)
Theorem calculateFee_not_NaN (T : Tables) (d : Dom) (national : number) :
  complete (form d) →
  national_step T (form d) = inr national →
  finite national = true →
  (∀ m, regionMultipliers T !! region (form d) = Some m →
        m ≠ S754_infinity false ∧ m ≠ S754_infinity true) →
  (regionMultipliers T !! region (form d) = None →
   inherited (region (form d)) = false) →
  ∃ regional total,
    results (calculateFee T d)
    = {| nationalFee := Fixed2 "National Fee: $" national;
         regionalFee := Fixed2 "Regional Fee: $" regional;
         totalFee := Fixed2 "Total Fee: $" total |}
    ∧ alerts (calculateFee T d) = alerts d
    ∧ national ≠ NaN ∧ regional ≠ NaN ∧ total ≠ NaN.
Proof.
  intros Hc Hn Hfin Hm Hown.
  assert (Hnat : national ≠ NaN) by (by destruct national).
  unfold calculateFee. rewrite Hn. unfold regional_step.
  destruct (negb _) eqn:Hbp.
  - assert (Hreg : empty (region (form d)) = false).
    { apply empty_false. apply (Hc Region). unfold required.
      apply negb_true_iff in Hbp. rewrite Hbp.
      repeat case_match; in_list. }
    rewrite Hreg.
    assert (Hr : getRegionalFee T (region (form d)) national ≠ NaN).
    { apply Math_ceil_not_NaN, mul_not_NaN; [done|]. unfold get.
      destruct (regionMultipliers T !! region (form d)) as [m|] eqn:He.
      - apply (or_zero_finite (Some m)). intros n [= <-]. by apply Hm.
      - by rewrite Hown. }
    eexists _, _. split; [reflexivity|]. split; [reflexivity|].
    split; [done|]. split; [done|]. by apply add_finite_not_NaN.
  - eexists _, _. split; [reflexivity|]. split; [reflexivity|].
    split; [done|]. split; [discriminate|]. by apply add_finite_not_NaN.
Qed.

(** A four-year institution of the sample file, in region R1. *)
Lemma calculateFee_not_NaN_witness :
  ∃ regional total,
    results
      (calculateFee sample_tables
         (page {| institutionType := "four-year"; fie := "Small"; gie := "Low";
                  gieTwoYear := ""; businessLevel := ""; region := "R1" |}))
    = {| nationalFee := Fixed2 "National Fee: $" n100;
         regionalFee := Fixed2 "Regional Fee: $" regional;
         totalFee := Fixed2 "Total Fee: $" total |}
    ∧ alerts
        (calculateFee sample_tables
           (page {| institutionType := "four-year"; fie := "Small";
                    gie := "Low"; gieTwoYear := ""; businessLevel := "";
                    region := "R1" |}))
      = []
    ∧ n100 ≠ NaN ∧ regional ≠ NaN ∧ total ≠ NaN.
Proof.
  apply calculateFee_not_NaN.
  - intros x Hx. apply list_elem_of_In in Hx. cbn in Hx.
    destruct Hx as [<-|[<-|[<-|[]]]]; discriminate.
  - vm_compute. reflexivity.
  - reflexivity.
  - intros m Hm. vm_compute in Hm. injection Hm as <-. split; discriminate.
  - intros Hm. vm_compute in Hm. discriminate Hm.
Defined.

Lemma business_partner_not_NaN_witness :
  ∃ national regional total,
    calculateFee sample_tables (page gold_partner)
    = show national regional total (page gold_partner)
    ∧ national ≠ NaN ∧ regional ≠ NaN ∧ total ≠ NaN
    ∧ results (calculateFee sample_tables (page gold_partner))
      = {| nationalFee := Fixed2 "National Fee: $" national;
           regionalFee := Fixed2 "Regional Fee: $" regional;
           totalFee := Fixed2 "Total Fee: $" total |}
    ∧ alerts (calculateFee sample_tables (page gold_partner)) = [].
Proof.
  apply business_partner_not_NaN; [reflexivity|discriminate].
Defined.

(** ** Whole numbers *)

Section Whole.

Lemma iter_xO_digits (m k : positive) :
  digits2_pos (Pos.iter xO m k) = (digits2_pos m + k)%positive.
Proof.
  induction k as [|k IH] using Pos.peano_ind.
  - cbn. lia.
  - rewrite Pos.iter_succ. cbn [digits2_pos]. rewrite IH. lia.
Qed.

Lemma iter_xO_value (m k : positive) :
  Z.pos (Pos.iter xO m k) = Z.pos m * 2 ^ Z.pos k.
Proof.
  induction k as [|k IH] using Pos.peano_ind.
  - cbn. lia.
  - rewrite Pos.iter_succ, Pos2Z.inj_succ, Z.pow_succ_r by lia.
    rewrite Pos2Z.inj_xO, IH. lia.
Qed.

Lemma shr_fexp_exponent (m e : Z) (l : location) :
  e ≤ (shr_fexp prec emax m e l).2.
Proof.
  unfold shr_fexp, shr. destruct (_ - e) as [|p|p]; cbn; lia.
Qed.

(** Rounding at an exponent that is not negative gives a whole number. *)
Lemma binary_round_aux_whole (s : bool) (m e : Z) (l : location) :
  0 ≤ e → whole (binary_round_aux prec emax s m e l).
Proof.
  intros He. unfold binary_round_aux.
  pose proof (shr_fexp_exponent m e l) as H1.
  destruct (shr_fexp prec emax m e l) as [mrs' e']. cbn in H1.
  pose proof (shr_fexp_exponent
                (round_nearest_even (shr_m mrs') (loc_of_shr_record mrs'))
                e' loc_Exact) as H2.
  destruct (shr_fexp prec emax _ e' loc_Exact) as [mrs'' e'']. cbn in H2.
  destruct (shr_m mrs''); [done| |done].
  destruct (e'' <=? emax - prec); [|done]. left. lia.
Qed.

(** An integer converts to a whole number. *)
Lemma of_Z_whole (s : bool) (z : Z) : whole (of_Z s z).
Proof.
  unfold of_Z, binary_normalize.
  assert (H : ∀ sx mx, whole (binary_round prec emax sx mx 0)).
  { intros sx mx. unfold binary_round, shl_align.
    set (d := Z.pos (digits2_pos mx)).
    assert (Hfexp : fexp prec emax (d + 0) = d - 53).
    { unfold fexp, SpecFloat.emin, prec, emax. subst d. lia. }
    rewrite Hfexp.
    destruct (d - 53 - 0) as [|p|p] eqn:Hd.
    - by apply binary_round_aux_whole.
    - by apply binary_round_aux_whole.
    - unfold binary_round_aux, shr_fexp.
      cbn [Zdigits2]. rewrite iter_xO_digits.
      assert (Hp : Z.pos (digits2_pos mx + p) = 53) by (subst d; lia).
      rewrite Hp.
      assert (Hf : fexp prec emax (53 + (d - 53)) - (d - 53) = 0).
      { unfold fexp, SpecFloat.emin, prec, emax. subst d. lia. }
      rewrite Hf. cbn [shr shr_record_of_loc shr_m loc_of_shr_record
                        round_nearest_even Zdigits2].
      rewrite iter_xO_digits, Hp, Hf.
      cbn [shr shr_record_of_loc shr_m].
      destruct (d - 53 <=? emax - prec); [|done].
      right. rewrite iter_xO_value.
      replace (- (d - 53)) with (Z.pos p) by lia.
      apply Z.divide_factor_r. }
  destruct z; [done|apply H..].
Qed.

End Whole.

(** X4: [Math.ceil] always gives a whole number (or [NaN], an infinity or a
    zero), so the regional fee is never a fraction. *)
Theorem getRegionalFee_whole (T : Tables) (region : string)
    (baseFee : number) :
  whole (getRegionalFee T region baseFee).
Proof.
  unfold getRegionalFee.
  destruct (mul _ _) as [s|s| |s m e]; try done.
  cbn [Math_ceil]. destruct (Z.leb_spec 0 e); [by left|]. apply of_Z_whole.
Qed.

(** ** The text and its cells *)

Section Text.

Lemma remove_quotes_chars (s : string) (c : ascii) :
  c ∈ chars (Str.remove_quotes s) ↔ c ∈ chars s ∧ c ≠ "034"%char.
Proof.
  induction s as [|a s IH]; cbn.
  - split; [intros H|intros [H _]]; by apply not_elem_of_nil in H.
  - destruct (Ascii.eqb_spec a "034"%char) as [->|Hne]; cbn [chars].
    + rewrite IH, elem_of_cons. naive_solver.
    + rewrite !elem_of_cons, IH. naive_solver.
Qed.

Lemma remove_quotes_clean (s : string) :
  "034"%char ∉ chars s → Str.remove_quotes s = s.
Proof.
  induction s as [|a s IH]; cbn; [done|].
  rewrite not_elem_of_cons. intros [Hne Hs].
  destruct (Ascii.eqb_spec a "034"%char); [congruence|]. by rewrite IH.
Qed.

Lemma trimStart_chars (s : string) (c : ascii) :
  c ∈ chars (Str.trimStart s) → c ∈ chars s.
Proof.
  induction s as [|a s IH]; cbn; [done|].
  destruct (Str.is_space a); [|done]. intros H. right. by apply IH.
Qed.

Lemma trimEnd_chars (s : string) (c : ascii) :
  c ∈ chars (Str.trimEnd s) → c ∈ chars s.
Proof.
  revert c. induction s as [|a s IH]; intros c; cbn; [done|].
  destruct (Str.trimEnd s) as [|b t] eqn:Ht.
  - destruct (Str.is_space a); cbn.
    + intros H. by apply not_elem_of_nil in H.
    + rewrite !elem_of_cons. intros [->|H]; [by left|].
      by apply not_elem_of_nil in H.
  - cbn [chars]. rewrite !elem_of_cons. intros [->|H]; [by left|].
    right. apply IH. cbn. by apply elem_of_cons.
Qed.

Lemma trim_chars (s : string) (c : ascii) :
  c ∈ chars (Str.trim s) → c ∈ chars s.
Proof. intros H. by apply trimStart_chars, trimEnd_chars. Qed.

Lemma trimStart_head (s : string) :
  Str.trimStart s = ""
  ∨ ∃ c r, Str.trimStart s = String c r ∧ Str.is_space c = false.
Proof.
  induction s as [|a s IH]; cbn; [by left|].
  destruct (Str.is_space a) eqn:Ha; [done|]. right. eauto.
Qed.

Lemma trimEnd_cons (a : ascii) (s : string) :
  Str.trimEnd (String a s)
  = match Str.trimEnd s with
    | EmptyString => if Str.is_space a then EmptyString else String a EmptyString
    | t => String a t
    end.
Proof. reflexivity. Qed.

Lemma trimEnd_again (s : string) : Str.trimEnd (Str.trimEnd s) = Str.trimEnd s.
Proof.
  induction s as [|a s IH]; [done|]. rewrite (trimEnd_cons a s).
  destruct (Str.trimEnd s) as [|b t] eqn:Ht.
  - destruct (Str.is_space a) eqn:Ha; [done|].
    rewrite trimEnd_cons. cbn. by rewrite Ha.
  - rewrite trimEnd_cons, IH. done.
Qed.

Lemma trimEnd_head (c : ascii) (r : string) :
  Str.is_space c = false → ∃ r', Str.trimEnd (String c r) = String c r'.
Proof.
  intros Hc. rewrite trimEnd_cons.
  destruct (Str.trimEnd r); [rewrite Hc|]; eauto.
Qed.

(** Trimming a trimmed string changes nothing. *)
Lemma trim_again (s : string) : Str.trim (Str.trim s) = Str.trim s.
Proof.
  unfold Str.trim.
  destruct (trimStart_head s) as [->|(c & r & -> & Hc)]; [done|].
  destruct (trimEnd_head c r Hc) as [r' Hr]. rewrite Hr.
  cbn [Str.trimStart]. rewrite Hc, <- Hr. apply trimEnd_again.
Qed.

Lemma split_parts (sep : ascii) (s : string) :
  (sep ∉ chars (Str.split sep s).1)
  ∧ Forall (fun x => sep ∉ chars x) (Str.split sep s).2.
Proof.
  induction s as [|a s [IH1 IH2]]; cbn.
  - split; [apply not_elem_of_nil|constructor].
  - destruct (Str.split sep s) as [h t]. cbn in *.
    destruct (Ascii.eqb_spec a sep) as [->|Hne]; cbn.
    + split; [apply not_elem_of_nil|by constructor].
    + split; [|done]. rewrite not_elem_of_cons. split; [congruence|done].
Qed.

Lemma split_chars (sep : ascii) (s : string) (c : ascii) (x : string) :
  x ∈ (Str.split sep s).1 :: (Str.split sep s).2 → c ∈ chars x → c ∈ chars s.
Proof.
  revert x. induction s as [|a s IH]; intros x; cbn.
  - rewrite list_elem_of_singleton. by intros ->.
  - destruct (Str.split sep s) as [h t]. cbn in *.
    destruct (Ascii.eqb_spec a sep) as [->|Hne]; cbn.
    + rewrite elem_of_cons. intros [->|Hx] Hc.
      * by apply not_elem_of_nil in Hc.
      * right. by apply (IH x).
    + rewrite elem_of_cons. intros [->|Hx]; cbn.
      * rewrite !elem_of_cons. intros [->|Hc]; [by left|].
        right. apply (IH h); [by left|done].
      * intros Hc. right. apply (IH x); [by right|done].
Qed.

Lemma concat_cons_cons (sep x y : string) (l : list string) :
  String.concat sep (x :: y :: l)
  = String.append x (String.append sep (String.concat sep (y :: l))).
Proof. reflexivity. Qed.

(** Splitting a joined list whose parts are free of the separator gives
    the parts back. *)
Lemma split_concat (sep : ascii) (h : string) (t : list string) :
  sep ∉ chars h → Forall (fun x => sep ∉ chars x) t →
  Str.split sep (String.concat (String sep "") (h :: t)) = (h, t).
Proof.
  revert h. induction t as [|x xs IH]; intros h Hh Ht.
  - change (String.concat (String sep "") [h]) with h.
    induction h as [|a h IHh]; [done|]. cbn [Str.split].
    apply not_elem_of_cons in Hh as [Hne Hh]. rewrite (IHh Hh).
    destruct (Ascii.eqb_spec a sep); [congruence|done].
  - inversion_clear Ht as [|? ? Hx Hxs]. rewrite concat_cons_cons.
    induction h as [|a h IHh].
    + change (Str.split sep (String sep (String.concat (String sep "") (x :: xs)))
              = ("", x :: xs)).
      cbn [Str.split]. rewrite (IH x Hx Hxs).
      by rewrite (proj2 (Ascii.eqb_eq sep sep) eq_refl).
    + apply not_elem_of_cons in Hh as [Hne Hh].
      change (Str.split sep
                (String a (String.append h
                   (String.append (String sep "")
                      (String.concat (String sep "") (x :: xs)))))
              = (String a h, x :: xs)).
      cbn [Str.split]. rewrite (IHh Hh).
      destruct (Ascii.eqb_spec a sep); [congruence|done].
Qed.

Lemma split_remove_quotes (sep : ascii) (s : string) :
  sep ≠ "034"%char →
  Str.split sep (Str.remove_quotes s)
  = (Str.remove_quotes (Str.split sep s).1,
     Str.remove_quotes <$> (Str.split sep s).2).
Proof.
  intros Hsep. induction s as [|a s IH]; [done|]. cbn.
  destruct (Str.split sep s) as [h t]. cbn [fst snd] in *.
  destruct (Ascii.eqb_spec a "034"%char) as [->|Ha].
  - destruct (Ascii.eqb_spec "034"%char sep); [congruence|]. cbn.
    rewrite IH. done.
  - cbn [Str.split]. rewrite IH.
    destruct (Ascii.eqb_spec a sep) as [->|Hne]; cbn; [done|].
    by destruct (Ascii.eqb_spec a "034"%char).
Qed.

Lemma remove_quotes_again (s : string) :
  Str.remove_quotes (Str.remove_quotes s) = Str.remove_quotes s.
Proof.
  apply remove_quotes_clean. rewrite remove_quotes_chars. naive_solver.
Qed.

Lemma clean_clean_cell (x : string) :
  ","%char ∉ chars x → "010"%char ∉ chars x → clean_cell (clean x).
Proof.
  intros Hc Hn. unfold clean_cell, clean. repeat split.
  - intros H. apply trim_chars, remove_quotes_chars in H. naive_solver.
  - intros H. apply trim_chars, remove_quotes_chars in H. naive_solver.
  - intros H. apply trim_chars, remove_quotes_chars in H. naive_solver.
  - apply trim_again.
Qed.

Lemma clean_of_clean_cell (cell : string) : clean_cell cell → clean cell = cell.
Proof.
  intros (Hq & _ & _ & Ht). unfold clean. by rewrite remove_quotes_clean.
Qed.

End Text.

(** X6: every cell that the loader reads is free of double quotes, commas
    and line feeds and has no white space at either end. *)
Theorem parse_rows_clean (data : string) (row : Row) (cell : string) :
  row ∈ parse_rows data → cell ∈ cells row → clean_cell cell.
Proof.
  unfold parse_rows.
  pose proof (split_parts "010" data) as [Hn1 Hn2].
  pose proof (split_chars "010" data) as Hsub.
  destruct (Str.split "010" data) as [l ls]. cbn [fst snd] in *.
  intros Hrow Hcell. apply list_elem_of_fmap in Hrow as (line & -> & Hline).
  assert (Hnl : "010"%char ∉ chars line).
  { apply elem_of_cons in Hline as [->|Hline]; [done|].
    by apply (proj1 (Forall_forall _ _) Hn2). }
  unfold parse_row, cells in Hcell.
  pose proof (split_parts "," line) as [Hc1 Hc2].
  pose proof (split_chars "," line) as Hsub'.
  destruct (Str.split "," line) as [h t]. cbn [fst snd] in *.
  assert (Hx : ∃ x, x ∈ h :: t ∧ cell = clean x).
  { apply elem_of_cons in Hcell as [->|Hcell]; [exists h; split; [by left|done]|].
    apply list_elem_of_fmap in Hcell as (x & -> & Hx).
    exists x. split; [by right|done]. }
  destruct Hx as (x & Hx & ->). apply clean_clean_cell.
  - apply elem_of_cons in Hx as [->|Hx]; [done|].
    by apply (proj1 (Forall_forall _ _) Hc2).
  - intros H. apply Hnl. by apply (Hsub' _ x).
Qed.

Lemma parse_rows_clean_witness : clean_cell "Small".
Proof.
  apply (parse_rows_clean headless_csv ("APPA", ["Small"; "Large"]) "Small").
  - apply list_elem_of_In. vm_compute. auto.
  - apply list_elem_of_In. vm_compute. auto.
Defined.

(** X7: quoting protects nothing: the double quotes are deleted wherever they
    stand, so the text without them is read as the same rows (a quoted
    cell with a comma inside is read as two cells). *)
Theorem parse_rows_quotes (data : string) :
  parse_rows (Str.remove_quotes data) = parse_rows data.
Proof.
  unfold parse_rows. rewrite split_remove_quotes by discriminate.
  destruct (Str.split "010" data) as [l ls]. cbn [fst snd].
  assert (Hrow : ∀ line, parse_row (Str.remove_quotes line) = parse_row line).
  { intros line. unfold parse_row.
    rewrite split_remove_quotes by discriminate.
    destruct (Str.split "," line) as [h t]. cbn [fst snd].
    unfold clean. rewrite remove_quotes_again. f_equal.
    rewrite <- list_fmap_compose. apply list_fmap_ext.
    intros i x _. cbn. by rewrite remove_quotes_again. }
  change (parse_row <$> (Str.remove_quotes <$> (l :: ls)) = parse_row <$> (l :: ls)).
  rewrite <- list_fmap_compose. apply list_fmap_ext. intros i x _. apply Hrow.
Qed.

(** ** Cells of digits *)

Lemma is_digit_not_space (c : ascii) :
  is_digit c = true → Str.is_space c = false.
Proof.
  unfold is_digit, Str.is_space. cbv zeta. set (n := Str.code c). lia.
Qed.

Lemma trimEnd_digits (s : string) :
  forallb is_digit (chars s) = true → Str.trimEnd s = s.
Proof.
  induction s as [|c s IH]; [done|]. cbn [chars forallb].
  intros [Hc Hs]%andb_true_iff. rewrite trimEnd_cons, (IH Hs).
  destruct s; [|done]. by rewrite (is_digit_not_space c Hc).
Qed.

Lemma trim_digits (s : string) :
  forallb is_digit (chars s) = true → Str.trim s = s.
Proof.
  intros H. unfold Str.trim.
  destruct s as [|c s]; [done|]. cbn [Str.trimStart].
  pose proof H as H'. cbn [chars forallb] in H'.
  apply andb_true_iff in H' as [Hc _].
  rewrite (is_digit_not_space c Hc). by apply trimEnd_digits.
Qed.

Lemma digits_all (s : string) (acc len : Z) :
  forallb is_digit (chars s) = true → 0 ≤ acc →
  0 ≤ fold_left (fun acc c => 10 * acc + (Str.code c - 48)) (chars s) acc
  ∧ digits s acc len
    = (fold_left (fun acc c => 10 * acc + (Str.code c - 48)) (chars s) acc,
       len + Z.of_nat (String.length s), EmptyString).
Proof.
  revert acc len. induction s as [|c s IH]; intros acc len H Hacc.
  - split; [done|]. cbn. do 2 f_equal. lia.
  - cbn [chars forallb] in H. apply andb_true_iff in H as [Hc Hs].
    cbn [digits chars fold_left]. rewrite Hc.
    destruct (IH (10 * acc + (Str.code c - 48)) (len + 1) Hs) as (Hv & ->).
    { unfold is_digit in Hc. cbv zeta in Hc. lia. }
    split; [done|]. cbn [String.length]. do 2 f_equal. lia.
Qed.

Lemma signed_decimal_digits (c : ascii) (s : string) :
  forallb is_digit (chars (String c s)) = true →
  signed_decimal false (String c s) = of_Z false (decimal_value (String c s)).
Proof.
  intros H. unfold signed_decimal.
  assert (Hinf : String.eqb (String c s) "Infinity" = false).
  { apply String.eqb_neq. intros [= -> _]. discriminate H. }
  rewrite Hinf. unfold unsigned_decimal.
  destruct (digits_all (String c s) 0 0 H) as (Hv & ->); [done|].
  fold (decimal_value (String c s)) in *.
  cbn [String.length]. cbn [exponent mbind option_bind].
  destruct (Z.ltb_spec 0 (0 + Z.of_nat (S (String.length s)))); [|lia].
  cbn [mbind option_bind]. unfold of_decimal.
  destruct (decimal_value (String c s)) as [|p|p]; [done| |lia].
  cbn [Z.leb Z.compare Z.sub Z.add Z.opp].
  by rewrite Z.pow_0_r, Z.mul_1_r.
Qed.

(** X5: a cell made of decimal digits converts to the number nearest to the
    integer it denotes, which is not [NaN]. *)
Theorem Number_digits (cell : string) :
  cell ≠ "" → forallb is_digit (chars cell) = true →
  Number (Some cell) = of_Z false (decimal_value cell)
  ∧ Number (Some cell) ≠ NaN.
Proof.
  intros Hne H.
  cut (Number (Some cell) = of_Z false (decimal_value cell)).
  { intros ->. split; [done|apply of_Z_not_NaN]. }
  unfold Number, StringToNumber. rewrite (trim_digits cell H).
  destruct cell as [|c s]; [done|].
  pose proof (signed_decimal_digits c s H) as Hd.
  pose proof H as H'. cbn [chars forallb] in H'.
  apply andb_true_iff in H' as [Hc Hs].
  destruct c as [[] [] [] [] [] [] [] []]; try discriminate Hc; try exact Hd.
  destruct s as [|c' s']; [exact Hd|].
  cbn [chars forallb] in Hs. apply andb_true_iff in Hs as [Hc' _].
  destruct c' as [[] [] [] [] [] [] [] []]; try discriminate Hc'; exact Hd.
Qed.

Lemma Number_digits_witness :
  Number (Some "250") = of_Z false (decimal_value "250")
  ∧ Number (Some "250") ≠ NaN.
Proof. apply Number_digits; [discriminate|reflexivity]. Defined.

(** ** Writing rows and reading them back *)

Lemma chars_append (s t : string) :
  chars (String.append s t) = (chars s ++ chars t)%list.
Proof. induction s as [|c s IH]; simpl; [done|by rewrite IH]. Qed.

Lemma chars_concat (sep : string) (l : list string) (c : ascii) :
  c ∈ chars (String.concat sep l) →
  c ∈ chars sep ∨ ∃ x, x ∈ l ∧ c ∈ chars x.
Proof.
  induction l as [|x [|y l] IH].
  - intros H. by apply not_elem_of_nil in H.
  - intros H. right. exists x. split; [by left|done].
  - rewrite concat_cons_cons, !chars_append, !elem_of_app.
    intros [H|[H|H]].
    + right. exists x. split; [by left|done].
    + by left.
    + destruct (IH H) as [?|(z & Hz & Hc)]; [by left|].
      right. exists z. split; [by right|done].
Qed.

Lemma parse_unparse_row (row : Row) :
  (∀ cell, cell ∈ cells row → clean_cell cell) →
  parse_row (unparse_row row) = row.
Proof.
  intros Hclean. destruct row as [h t]. unfold parse_row, unparse_row, cells.
  cbn [fst snd] in *. rewrite split_concat.
  - rewrite (clean_of_clean_cell h) by (apply Hclean; by left). f_equal.
    rewrite <- (list_fmap_id t) at 2. apply list_fmap_ext.
    intros i x Hx. apply clean_of_clean_cell, Hclean. right.
    by apply list_elem_of_lookup_2 in Hx.
  - apply Hclean. by left.
  - apply Forall_forall. intros x Hx. apply Hclean. by right.
Qed.

(** X8: rows of clean cells, written with commas between the cells and
    line feeds between the rows, are read back as they are. *)
Theorem parse_unparse_rows (rows : list Row) :
  rows ≠ [] →
  (∀ row cell, row ∈ rows → cell ∈ cells row → clean_cell cell) →
  parse_rows (unparse_rows rows) = rows.
Proof.
  intros Hne Hclean. destruct rows as [|r rs]; [done|].
  unfold parse_rows, unparse_rows, newline.
  change (unparse_row <$> r :: rs) with (unparse_row r :: (unparse_row <$> rs)).
  assert (Hnl : ∀ row, row ∈ r :: rs → "010"%char ∉ chars (unparse_row row)).
  { intros row Hrow H. apply chars_concat in H as [H|(x & Hx & H)].
    - apply list_elem_of_singleton in H. discriminate H.
    - by apply (Hclean row x Hrow Hx). }
  rewrite split_concat.
  - change (parse_row <$> (unparse_row <$> r :: rs) = r :: rs).
    rewrite <- list_fmap_compose. rewrite <- (list_fmap_id (r :: rs)) at 2.
    apply list_fmap_ext. intros i row Hrow. cbn.
    apply parse_unparse_row. intros cell. apply Hclean.
    by apply list_elem_of_lookup_2 in Hrow.
  - apply Hnl. by left.
  - apply Forall_forall. intros u Hu.
    apply list_elem_of_fmap in Hu as (row & -> & Hrow). apply Hnl. by right.
Qed.

Lemma parse_unparse_rows_witness :
  parse_rows (unparse_rows [("k12", ["500"]); ("", [])])
  = [("k12", ["500"]); ("", [])].
Proof.
  apply parse_unparse_rows; [discriminate|].
  intros row cell Hrow Hcell. apply list_elem_of_In in Hrow, Hcell.
  assert (Hc : cell = "k12" ∨ cell = "500" ∨ cell = "").
  { cbn in Hrow. destruct Hrow as [<-|[<-|[]]]; cbn in Hcell;
      intuition (subst; auto). }
  destruct Hc as [ -> | [ -> | -> ] ];
    (unfold clean_cell; cbn [chars]; rewrite ?not_elem_of_cons;
     repeat split; try discriminate; try apply not_elem_of_nil).
Defined.

(** ** Sections *)

Lemma findIndex_first (p : Row → bool) (pre : list Row) (row : Row)
    (post : list Row) :
  (∀ r, r ∈ pre → p r = false) → p row = true →
  findIndex p (pre ++ row :: post) = Z.of_nat (length pre).
Proof.
  intros Hpre Hrow. induction pre as [|a pre IH]; cbn [findIndex app length].
  - by rewrite Hrow.
  - rewrite (Hpre a) by (by left).
    rewrite IH by (intros r Hr; apply Hpre; by right).
    destruct (Z.eqb_spec (Z.of_nat (length pre)) (-1)); lia.
Qed.

Lemma findIndex_found (p : Row → bool) (rows : list Row) :
  0 ≤ findIndex p rows →
  ∃ pre row post,
    rows = (pre ++ row :: post)%list
    ∧ findIndex p rows = Z.of_nat (length pre)
    ∧ p row = true ∧ ∀ r, r ∈ pre → p r = false.
Proof.
  induction rows as [|a rows IH]; cbn [findIndex]; [lia|].
  destruct (p a) eqn:Ha.
  - intros _. exists [], a, rows. repeat split; [done|].
    intros r Hr. by apply not_elem_of_nil in Hr.
  - destruct (Z.eqb_spec (findIndex p rows) (-1)) as [|Hne]; [lia|].
    intros _. destruct IH as (pre & row & post & -> & Hi & Hrow & Hpre).
    { pose proof (findIndex_range p rows). lia. }
    exists (a :: pre), row, post. repeat split; [|done|].
    + rewrite Hi. cbn [length]. lia.
    + intros r Hr. apply elem_of_cons in Hr as [->|Hr]; [done|by apply Hpre].
Qed.

Lemma section_rows_app (sec rest : list Row) :
  (∀ r, r ∈ sec → blank r = false) →
  (∀ r, head rest = Some r → blank r = true) →
  section_rows (sec ++ rest) = sec.
Proof.
  intros Hsec Hrest. induction sec as [|a sec IH]; cbn [app section_rows].
  - destruct rest as [|r rest]; [done|]. cbn. by rewrite (Hrest r).
  - rewrite (Hsec a) by (by left). f_equal. apply IH.
    intros r Hr. apply Hsec. by right.
Qed.

(** After the first header row the section is read up to the first
    blank row. *)
Lemma parseSection_after (header : string) (pre : list Row) (hrow : Row)
    (rest : list Row) :
  header_absent header pre →
  hrow.1 = header →
  parseSection (pre ++ hrow :: rest) header = section_rows rest.
Proof.
  intros Hpre Hh. unfold parseSection.
  rewrite (findIndex_first _ pre hrow).
  - destruct (Z.eqb_spec (Z.of_nat (length pre)) (-1)); [lia|].
    replace (Z.to_nat (Z.of_nat (length pre) + 1)) with (length pre + 1)%nat
      by lia.
    by rewrite <- drop_drop, drop_app_length.
  - intros r Hr. apply String.eqb_neq. by apply Hpre.
  - by apply String.eqb_eq.
Qed.

(** X9: [parseSection] returns the rows between the first row that has
    the header as its first cell and the next blank row, or the end of the
    file when no blank row follows; later rows, also a second row with
    the header, are not read. *)
Theorem parseSection_between (header : string) (pre : list Row) (hrow : Row)
    (sec rest : list Row) :
  header_absent header pre →
  hrow.1 = header →
  (∀ r, r ∈ sec → blank r = false) →
  (∀ r, head rest = Some r → blank r = true) →
  parseSection (pre ++ hrow :: sec ++ rest) header = sec.
Proof.
  intros Hpre Hh Hsec Hrest.
  rewrite parseSection_after by done. by apply section_rows_app.
Qed.

Lemma parseSection_between_witness :
  parseSection [("Fees", []); ("a", ["1"]); ("", []); ("Fees", []); ("b", ["2"])]
               "Fees"
  = [("a", ["1"])].
Proof.
  apply (parseSection_between "Fees" [] ("Fees", []) [("a", ["1"])]
           [("", []); ("Fees", []); ("b", ["2"])]).
  - intros r Hr. by apply not_elem_of_nil in Hr.
  - reflexivity.
  - intros r Hr. apply list_elem_of_singleton in Hr. by subst r.
  - intros r [= <-]. reflexivity.
Defined.

Lemma section_rows_sub (rows : list Row) (r : Row) :
  r ∈ section_rows rows → blank r = false ∧ r ∈ rows.
Proof.
  induction rows as [|a rows IH]; cbn [section_rows].
  - intros H. by apply not_elem_of_nil in H.
  - destruct (blank a) eqn:Ha.
    + intros H. by apply not_elem_of_nil in H.
    + rewrite !elem_of_cons. intros [->|H]; [by split; [|left]|].
      destruct (IH H). by split; [|right].
Qed.

(** X10: every row of a section is a row of the file that is not blank,
    and a section has rows only if the file has its header row. *)
Theorem parseSection_rows (rows : list Row) (header : string) (r : Row) :
  r ∈ parseSection rows header →
  blank r = false ∧ r ∈ rows ∧ ¬ header_absent header rows.
Proof.
  unfold parseSection.
  destruct (Z.eqb_spec (findIndex (is_header header) rows) (-1)) as [He|Hne].
  - intros H. by apply not_elem_of_nil in H.
  - intros H. apply section_rows_sub in H as [Hb Hr].
    split; [done|]. split.
    + apply list_elem_of_lookup in Hr as [i Hi].
      rewrite lookup_drop in Hi. by apply list_elem_of_lookup_2 in Hi.
    + intros Habs. by apply findIndex_absent in Habs.
Qed.

Lemma parseSection_rows_witness :
  blank ("R1", ["0.1"]) = false
  ∧ ("R1", ["0.1"]) ∈ parse_rows sample_csv
  ∧ ¬ header_absent hdr_regional (parse_rows sample_csv).
Proof.
  apply (parseSection_rows (parse_rows sample_csv) hdr_regional).
  apply list_elem_of_In. vm_compute. auto.
Defined.

(** ** How the handler ends *)

Lemma at_index_length (rows : list Row) (i : Z) :
  at_index rows i = None ↔ i < 0 ∨ Z.of_nat (length rows) ≤ i.
Proof.
  unfold at_index. destruct (Z.ltb_spec i 0) as [Hi|Hi].
  - split; [by left|done].
  - rewrite lookup_ge_None. lia.
Qed.

(** X11: the handler throws exactly when the first row with the four-year
    header is the last row of the text. *)
Theorem loadTables_TypeError (data : string) (T0 : Tables) :
  (∃ T, loadTables data T0 = TypeError T)
  ↔ ∃ pre hrow,
      parse_rows data = (pre ++ [hrow])%list
      ∧ header_absent hdr_fourYear pre ∧ hrow.1 = hdr_fourYear.
Proof.
  unfold loadTables, load_fte. set (rows := parse_rows data).
  pose proof (findIndex_range (is_header hdr_fourYear) rows) as Hrange.
  split.
  - intros [T HT].
    destruct (at_index rows _) as [r|] eqn:Hat; [discriminate|].
    apply at_index_length in Hat.
    destruct (parse_rows_first data) as (r0 & rs & Hrows). fold rows in Hrows.
    assert (Hpos : 0 ≤ findIndex (is_header hdr_fourYear) rows).
    { destruct Hrange as [He|?]; [|lia]. rewrite He, Hrows in Hat.
      cbn [length] in Hat. lia. }
    destruct (findIndex_found _ _ Hpos) as (pre & hrow & post & Heq & Hi & Hh & Hpre).
    rewrite Hi, Heq, length_app in Hat. cbn [length] in Hat.
    destruct post as [|x post]; [|cbn [length] in Hat; lia].
    exists pre, hrow. split; [done|]. split.
    + intros r Hr. apply String.eqb_neq. by apply Hpre.
    + by apply String.eqb_eq.
  - intros (pre & hrow & Heq & Hpre & Hh).
    rewrite Heq, (findIndex_first _ pre hrow []).
    + assert (Hat : at_index (pre ++ [hrow]) (Z.of_nat (length pre) + 1) = None).
      { apply at_index_length. rewrite length_app. cbn [length]. lia. }
      rewrite Hat. eauto.
    + intros r Hr. apply String.eqb_neq. by apply Hpre.
    + by apply String.eqb_eq.
Qed.

(** X12: when the handler throws it has emptied the list of GIE options
    and left every other global as it was: nothing of the other sections
    is loaded. *)
Theorem loadTables_TypeError_globals (data : string) (T0 T : Tables) :
  loadTables data T0 = TypeError T →
  gieOptions T = []
  ∧ T = {| feeMatrix := feeMatrix T0;
           gieOptions := [];
           nonHigherEdFees := nonHigherEdFees T0;
           businessPartnerFees := businessPartnerFees T0;
           regionMultipliers := regionMultipliers T0;
           fteOptions := fteOptions T0;
           fteIndexMap := fteIndexMap T0;
           twoYearGieOptions := twoYearGieOptions T0;
           businessPartnerLevels := businessPartnerLevels T0;
           regions := regions T0 |}.
Proof.
  unfold loadTables, load_fte.
  destruct (at_index _ _) as [r|] eqn:Hat; [discriminate|].
  assert (Hsec : parseSection (parse_rows data) hdr_fourYear = []).
  { unfold parseSection.
    destruct (Z.eqb_spec (findIndex (is_header hdr_fourYear) (parse_rows data))
                         (-1)); [done|].
    apply at_index_length in Hat.
    pose proof (findIndex_range (is_header hdr_fourYear) (parse_rows data)).
    rewrite drop_ge by lia. done. }
  intros [= <-]. unfold load_fourYear. rewrite Hsec. done.
Qed.

Lemma loadTables_TypeError_globals_witness :
  gieOptions (globals (loadTables hdr_fourYear sample_tables)) = []
  ∧ globals (loadTables hdr_fourYear sample_tables)
    = {| feeMatrix := feeMatrix sample_tables;
         gieOptions := [];
         nonHigherEdFees := nonHigherEdFees sample_tables;
         businessPartnerFees := businessPartnerFees sample_tables;
         regionMultipliers := regionMultipliers sample_tables;
         fteOptions := fteOptions sample_tables;
         fteIndexMap := fteIndexMap sample_tables;
         twoYearGieOptions := twoYearGieOptions sample_tables;
         businessPartnerLevels := businessPartnerLevels sample_tables;
         regions := regions sample_tables |}.
Proof.
  apply (loadTables_TypeError_globals hdr_fourYear sample_tables).
  vm_compute. reflexivity.
Defined.

(** ** What the dropdown lists offer *)

Lemma last_row_is_Some (k : string) (rows : list Row) :
  is_Some (last_row k rows) ↔ ∃ r, r ∈ rows ∧ r.1 = k.
Proof.
  induction rows as [|a rows IH]; cbn [last_row].
  - split; [by intros [? ?]|]. intros (r & Hr & _). by apply not_elem_of_nil in Hr.
  - destruct (last_row k rows) as [r'|].
    + split; [|by eauto]. intros _.
      destruct (proj1 IH) as (r & Hr & Hk); [by eauto|].
      exists r. split; [by right|done].
    + destruct (String.eqb_spec a.1 k) as [Ha|Ha].
      * split; [|by eauto]. intros _. exists a. split; [by left|done].
      * split; [by intros [? ?]|]. intros (r & Hr & Hk).
        apply elem_of_cons in Hr as [->|Hr]; [done|].
        apply IH. eauto.
Qed.

Lemma set_rows_is_Some {V} (f : Row → V) (m : gmap string V)
    (rows : list Row) (r : Row) :
  r ∈ rows → is_Some (set_rows f m rows !! r.1).
Proof.
  intros Hr. rewrite set_rows_lookup.
  destruct (proj2 (last_row_is_Some r.1 rows)) as [r' ->]; eauto.
Qed.

Lemma put_rows_is_Some {V} (f : Row → V) (m : gmap string V)
    (rows : list Row) (r : Row) :
  r ∈ rows → r.1 ≠ "__proto__" → is_Some (put_rows f m rows !! r.1).
Proof.
  intros Hr Hne. rewrite put_rows_lookup by done.
  destruct (proj2 (last_row_is_Some r.1 rows)) as [r' ->]; eauto.
Qed.

(** X13: after a completed load, reading the fee matrix at an option of
    the GIE list gives an array; every option of the business-level list
    has an entry in the table of the business-partner fees; every option
    of the region list other than [__proto__] has an entry among the
    region multipliers, and [__proto__] has none, offered or not. *)
Theorem offered_options_have_entries (data : string) (T0 T : Tables) :
  loadTables data T0 = Loaded T →
  (∀ g, g ∈ gieOptions T → ∃ fees, get (feeMatrix T) g = Own fees)
  ∧ (∀ o, o ∈ businessPartnerLevels T →
          is_Some (businessPartnerFees T !! opt_value o))
  ∧ (∀ o, o ∈ regions T → opt_value o ≠ "__proto__" →
          is_Some (regionMultipliers T !! opt_value o))
  ∧ (regionMultipliers T0 !! "__proto__" = None →
     regionMultipliers T !! "__proto__" = None).
Proof.
  unfold loadTables, load_fte.
  destruct (at_index _ _) as [row|]; cbn; [|discriminate].
  intros [= <-]. cbn. repeat apply conj.
  - intros g Hg. apply list_elem_of_fmap in Hg as (r & -> & Hr).
    destruct (set_rows_is_Some
                (fun row => (fun cell => Number (Some cell)) <$> row.2)
                (feeMatrix T0) _ r Hr) as [fees Hfees].
    exists fees. by apply get_Own.
  - intros o Ho. apply list_elem_of_fmap in Ho as (r & -> & Hr). cbn.
    by apply set_rows_is_Some.
  - intros o Ho. apply list_elem_of_fmap in Ho as (r & -> & Hr). cbn.
    by apply put_rows_is_Some.
  - apply put_rows_proto.
Qed.

Lemma offered_options_have_entries_witness :
  (∀ g, g ∈ gieOptions sample_tables →
        ∃ fees, get (feeMatrix sample_tables) g = Own fees)
  ∧ (∀ o, o ∈ businessPartnerLevels sample_tables →
          is_Some (businessPartnerFees sample_tables !! opt_value o))
  ∧ (∀ o, o ∈ regions sample_tables → opt_value o ≠ "__proto__" →
          is_Some (regionMultipliers sample_tables !! opt_value o))
  ∧ regionMultipliers sample_tables !! "__proto__" = None.
Proof.
  destruct (offered_options_have_entries sample_csv initial sample_tables)
    as (Hg & Hb & Hr & Hp); [vm_compute; reflexivity|].
  split; [exact Hg|]. split; [exact Hb|]. split; [exact Hr|].
  apply Hp. reflexivity.
Defined.

(** ** The FTE index map *)

Lemma index_fold_snd (options : list string) (acc : gmap string nat) (n : nat) :
  (foldl (fun '(acc, index) val => (put val index acc, S index))
         (acc, n) options).2 = (n + length options)%nat.
Proof.
  revert acc n. induction options as [|v options IH]; intros acc n; cbn.
  - lia.
  - rewrite IH. lia.
Qed.

Lemma index_map_snoc (options : list string) (v : string) :
  index_map (options ++ [v]) = put v (length options) (index_map options).
Proof.
  unfold index_map. rewrite foldl_snoc.
  pose proof (index_fold_snd options ∅ 0) as Hn.
  destruct (foldl _ _ options) as [m i]. cbn in *. by subst i.
Qed.

(** The index map never has an own property [__proto__]. *)
Lemma index_map_proto (options : list string) :
  index_map options !! "__proto__" = None.
Proof.
  induction options as [|v options IH] using rev_ind; [done|].
  rewrite index_map_snoc. by apply put_proto.
Qed.

Lemma index_map_None (options : list string) (label : string) :
  label ≠ "__proto__" →
  index_map options !! label = None ↔ label ∉ options.
Proof.
  intros Hl. induction options as [|v options IH] using rev_ind.
  - split; [intros _; apply not_elem_of_nil|done].
  - rewrite index_map_snoc, not_elem_of_app, list_elem_of_singleton.
    destruct (decide (v = label)) as [->|Hne].
    + rewrite put_lookup_eq by done. naive_solver.
    + rewrite put_lookup_ne by done. rewrite IH. naive_solver.
Qed.

Lemma index_map_Some (options : list string) (label : string) (i : nat) :
  index_map options !! label = Some i →
  options !! i = Some label ∧ ∀ j, (i < j)%nat → options !! j ≠ Some label.
Proof.
  destruct (decide (label = "__proto__")) as [->|Hl].
  { by rewrite index_map_proto. }
  revert i. induction options as [|v options IH] using rev_ind; intros i.
  - done.
  - rewrite index_map_snoc.
    destruct (decide (v = label)) as [->|Hne].
    + rewrite put_lookup_eq by done. intros [= <-]. split.
      * by rewrite lookup_app_r, Nat.sub_diag.
      * intros j Hj. rewrite lookup_ge_None_2; [done|].
        rewrite length_app. cbn. lia.
    + rewrite put_lookup_ne by done. intros Hi.
      destruct (IH i Hi) as [Hl' Hlast].
      pose proof (lookup_lt_Some _ _ _ Hl') as Hlt. split.
      * by rewrite lookup_app_l.
      * intros j Hj. destruct (decide (j < length options)%nat).
        -- rewrite lookup_app_l by done. by apply Hlast.
        -- rewrite lookup_app_r by lia.
           destruct (j - length options)%nat; cbn; [congruence|done].
Qed.

Lemma index_map_Some_iff (options : list string) (label : string) (i : nat) :
  label ≠ "__proto__" →
  index_map options !! label = Some i
  ↔ options !! i = Some label ∧ ∀ j, (i < j)%nat → options !! j ≠ Some label.
Proof.
  intros Hl. split; [apply index_map_Some|]. intros [Hi Hlast].
  destruct (index_map options !! label) as [i'|] eqn:Hm.
  - destruct (index_map_Some _ _ _ Hm) as [Hi' Hlast'].
    destruct (Nat.lt_trichotomy i i') as [Hlt|[->|Hlt]]; [|done|].
    + by destruct (Hlast i' Hlt).
    + by destruct (Hlast' i Hlt).
  - apply index_map_None in Hm; [|done]. destruct Hm.
    by apply list_elem_of_lookup_2 in Hi.
Qed.

(** X15: the index map sends a label other than [__proto__] to the last
    column that carries it, and has no entry for such a label that is
    not in the list; it never has an entry [__proto__], in the list or
    not. *)
Theorem index_map_last (options : list string) (label : string) :
  (label ≠ "__proto__" →
   (∀ i, index_map options !! label = Some i
         ↔ options !! i = Some label
           ∧ ∀ j, (i < j)%nat → options !! j ≠ Some label)
   ∧ (index_map options !! label = None ↔ label ∉ options))
  ∧ index_map options !! "__proto__" = None.
Proof.
  split; [|apply index_map_proto]. intros Hl.
  split; [intros i; by apply index_map_Some_iff|by apply index_map_None].
Qed.

(** The column [i] of a list without repetition. *)
Lemma index_map_last_witness :
  (∀ i, index_map ["Small"; "Large"] !! "Large" = Some i
        ↔ ["Small"; "Large"] !! i = Some "Large"
          ∧ ∀ j, (i < j)%nat → ["Small"; "Large"] !! j ≠ Some "Large")
  ∧ (index_map ["Small"; "Large"] !! "Large" = None
     ↔ "Large" ∉ ["Small"; "Large"]).
Proof.
  apply (index_map_last ["Small"; "Large"] "Large"). discriminate.
Defined.

Lemma index_map_NoDup (options : list string) (label : string) (i : nat) :
  label ≠ "__proto__" →
  NoDup options → options !! i = Some label →
  index_map options !! label = Some i.
Proof.
  intros Hl Hnd Hi. apply index_map_Some_iff; [done|]. split; [done|].
  intros j Hj Hl'. pose proof (NoDup_lookup _ _ _ _ Hnd Hi Hl'). lia.
Qed.

(** ** From the text to the fees *)

(** The globals after the load of a text whose four-year header is
    followed by a row of labels. *)
Lemma loadTables_header (data : string) (T0 : Tables)
    (pre : list Row) (hrow labels : Row) (post : list Row) :
  parse_rows data = (pre ++ hrow :: labels :: post)%list →
  header_absent hdr_fourYear pre →
  hrow.1 = hdr_fourYear →
  parseSection (parse_rows data) hdr_fourYear = section_rows (labels :: post)
  ∧ ∃ T, loadTables data T0 = Loaded T
         ∧ fteOptions T = labels.2
         ∧ fteIndexMap T = index_map labels.2
         ∧ gieOptions T = (fun row => row.1) <$> section_rows (labels :: post).
Proof.
  intros Heq Hpre Hh. unfold loadTables, load_fte.
  assert (Hi : findIndex (is_header hdr_fourYear) (parse_rows data)
               = Z.of_nat (length pre)).
  { rewrite Heq. apply findIndex_first.
    - intros r Hr. apply String.eqb_neq. by apply Hpre.
    - by apply String.eqb_eq. }
  assert (Hsec : parseSection (parse_rows data) hdr_fourYear
                 = section_rows (labels :: post)).
  { rewrite Heq. by apply parseSection_after. }
  assert (Hat : at_index (parse_rows data) (Z.of_nat (length pre) + 1)
                = Some labels).
  { unfold at_index. destruct (Z.ltb_spec (Z.of_nat (length pre) + 1) 0); [lia|].
    replace (Z.to_nat (Z.of_nat (length pre) + 1)) with (length pre + 1)%nat
      by lia.
    rewrite Heq, lookup_app_r by lia.
    replace (length pre + 1 - length pre)%nat with 1%nat by lia. done. }
  split; [done|].
  rewrite Hi, Hat. cbn [mbind option_bind]. eexists. split; [reflexivity|].
  unfold load_flat, load_fourYear.
  cbn [fteOptions gieOptions fteIndexMap]. by rewrite Hsec.
Qed.

(** X14: the row that follows the four-year header gives the FTE labels
    and, unless it is blank, is also the first row of the section: its
    first cell is the first GIE option, with a row in the fee matrix. *)
Theorem label_row_is_GIE_option (data : string) (T0 : Tables)
    (pre : list Row) (hrow labels : Row) (post : list Row) :
  parse_rows data = (pre ++ hrow :: labels :: post)%list →
  header_absent hdr_fourYear pre →
  hrow.1 = hdr_fourYear →
  ∃ T, loadTables data T0 = Loaded T
       ∧ fteOptions T = labels.2
       ∧ (blank labels = false →
          head (gieOptions T) = Some labels.1
          ∧ is_Some (feeMatrix T !! labels.1))
       ∧ (blank labels = true → gieOptions T = []).
Proof.
  intros Heq Hpre Hh.
  destruct (loadTables_header data T0 pre hrow labels post Heq Hpre Hh)
    as (Hsec & T & HT & Hfte & _ & Hgie).
  exists T. split; [done|]. split; [done|].
  destruct (loadTables_Loaded _ _ _ HT) as (H4 & _).
  rewrite Hgie, H4, Hsec. cbn [section_rows].
  split; intros Hb; rewrite Hb; [|done]. split; [done|].
  apply (set_rows_is_Some _ _ (labels :: section_rows post)). by left.
Qed.

Lemma label_row_is_GIE_option_witness :
  ∃ T, loadTables sample_csv initial = Loaded T
       ∧ fteOptions T = ["Small"; "Large"]
       ∧ (blank ("GIE", ["Small"; "Large"]) = false →
          head (gieOptions T) = Some "GIE"
          ∧ is_Some (feeMatrix T !! "GIE"))
       ∧ (blank ("GIE", ["Small"; "Large"]) = true → gieOptions T = []).
Proof.
  refine (label_row_is_GIE_option sample_csv initial []
            (hdr_fourYear, []) ("GIE", ["Small"; "Large"]) _ _ _ _).
  - vm_compute. reflexivity.
  - intros r Hr. by apply not_elem_of_nil in Hr.
  - reflexivity.
Defined.

(** X16: in a text whose four-year section starts with a row of FTE labels,
    the fee of an FTE label and a GIE label is read from the last row of
    the section with that GIE label, in the last column with that FTE
    label: it is [Number] of that cell, or 0 when that is [NaN] or a
    zero. The FTE label [__proto__] is the exception: it has no column,
    and its fee is 0. *)
Theorem getFourYearFee_from_text (data : string) (T0 : Tables)
    (pre : list Row) (hrow labels : Row) (post : list Row)
    (fte gie : string) (i : nat) (row : Row) (cell : string) :
  parse_rows data = (pre ++ hrow :: labels :: post)%list →
  header_absent hdr_fourYear pre →
  hrow.1 = hdr_fourYear →
  labels.2 !! i = Some fte →
  (∀ j, (i < j)%nat → labels.2 !! j ≠ Some fte) →
  last_row gie (parseSection (parse_rows data) hdr_fourYear) = Some row →
  row.2 !! i = Some cell →
  ∃ T, loadTables data T0 = Loaded T
       ∧ getFourYearFee T fte gie
         = if String.eqb fte "__proto__" then zero
           else if truthy (Number (Some cell)) then Number (Some cell)
           else zero.
Proof.
  intros Heq Hpre Hh Hfte Hlast Hrow Hcell.
  destruct (loadTables_header data T0 pre hrow labels post Heq Hpre Hh)
    as (_ & T & HT & _ & Hmap & _).
  exists T. split; [done|].
  destruct (loadTables_Loaded _ _ _ HT) as (H4 & _).
  assert (He : feeMatrix T !! gie
               = Some ((fun cell => Number (Some cell)) <$> row.2)).
  { by rewrite H4, set_rows_lookup, Hrow. }
  unfold getFourYearFee. rewrite (get_Own _ _ _ He), Hmap. cbn zeta.
  destruct (String.eqb_spec fte "__proto__") as [->|Hne].
  - by rewrite (get_Member _ _ (index_map_proto labels.2) eq_refl).
  - rewrite (get_Own _ _ i).
    + cbn [column]. rewrite index_or_zero_Some. cbn [mbind option_bind].
      by rewrite list_lookup_fmap, Hcell.
    + by apply index_map_Some_iff.
Qed.

Lemma getFourYearFee_from_text_witness :
  ∃ T, loadTables sample_csv initial = Loaded T
       ∧ getFourYearFee T "Large" "High"
         = if truthy (Number (Some "400")) then Number (Some "400") else zero.
Proof.
  refine (getFourYearFee_from_text sample_csv initial []
            (hdr_fourYear, []) ("GIE", ["Small"; "Large"]) _
            "Large" "High" 1 ("High", ["300"; "400"]) "400" _ _ _ _ _ _ _).
  - vm_compute. reflexivity.
  - intros r Hr. by apply not_elem_of_nil in Hr.
  - reflexivity.
  - reflexivity.
  - intros j Hj. destruct j as [|[|j]]; [lia|lia|discriminate].
  - vm_compute. reflexivity.
  - reflexivity.
Defined.

(** X17: rows that repeat a label: in the fee matrix and in the tables of
    non-higher-education fees, business-partner fees and region
    multipliers the last row of the section decides the entry (for the
    region multipliers: of a label other than [__proto__], which never
    gets an entry), but [getTwoYearFee] takes the first row of the
    section. *)
Theorem repeated_labels (data : string) (T0 T : Tables) :
  loadTables data T0 = Loaded T →
  let rows := parse_rows data in
  (∀ k row, last_row k (parseSection rows hdr_fourYear) = Some row →
            get (feeMatrix T) k
            = Own ((fun cell => Number (Some cell)) <$> row.2))
  ∧ (∀ k row, last_row k (parseSection rows hdr_nonHigherEd) = Some row →
              nonHigherEdFees T !! k = Some (Number (cell1 row)))
  ∧ (∀ k row, last_row k (parseSection rows hdr_businessPartner) = Some row →
              businessPartnerFees T !! k = Some (Number (cell1 row)))
  ∧ (∀ k row, last_row k (parseSection rows hdr_regional) = Some row →
              k ≠ "__proto__" →
              regionMultipliers T !! k = Some (Number (cell1 row)))
  ∧ (regionMultipliers T0 !! "__proto__" = None →
     regionMultipliers T !! "__proto__" = None)
  ∧ (∀ k row,
        List.find (is_header k) (parseSection rows hdr_twoYear) = Some row →
        getTwoYearFee T k = Number (cell1 row)).
Proof.
  intros Hload rows.
  destruct (loadTables_Loaded _ _ _ Hload) as (H4 & H2 & Hn & Hb & Hr).
  fold rows in H4, H2, Hn, Hb, Hr.
  split; [|split; [|split; [|split; [|split]]]].
  - intros k row Hrow. apply get_Own. by rewrite H4, set_rows_lookup, Hrow.
  - intros k row Hrow. by rewrite Hn, set_rows_lookup, Hrow.
  - intros k row Hrow. by rewrite Hb, set_rows_lookup, Hrow.
  - intros k row Hrow Hk. by rewrite Hr, put_rows_lookup, Hrow.
  - intros Hnone. rewrite Hr. by apply put_rows_proto.
  - intros k row Hrow. unfold getTwoYearFee, find_option.
    by rewrite H2, find_two_year, Hrow.
Qed.

Lemma repeated_labels_witness :
  let rows := parse_rows sample_csv in
  (∀ k row, last_row k (parseSection rows hdr_fourYear) = Some row →
            get (feeMatrix sample_tables) k
            = Own ((fun cell => Number (Some cell)) <$> row.2))
  ∧ (∀ k row, last_row k (parseSection rows hdr_nonHigherEd) = Some row →
              nonHigherEdFees sample_tables !! k = Some (Number (cell1 row)))
  ∧ (∀ k row, last_row k (parseSection rows hdr_businessPartner) = Some row →
              businessPartnerFees sample_tables !! k
              = Some (Number (cell1 row)))
  ∧ (∀ k row, last_row k (parseSection rows hdr_regional) = Some row →
              k ≠ "__proto__" →
              regionMultipliers sample_tables !! k = Some (Number (cell1 row)))
  ∧ regionMultipliers sample_tables !! "__proto__" = None
  ∧ (∀ k row,
        List.find (is_header k) (parseSection rows hdr_twoYear) = Some row →
        getTwoYearFee sample_tables k = Number (cell1 row)).
Proof.
  destruct (repeated_labels sample_csv initial sample_tables)
    as (H4 & Hn & Hb & Hr & Hp & H2); [vm_compute; reflexivity|].
  cbv zeta.
  split; [exact H4|]. split; [exact Hn|]. split; [exact Hb|].
  split; [exact Hr|]. split; [apply Hp; reflexivity|exact H2].
Defined.

(** ** The dropdowns after a change of the institution type *)

Lemma set_innerHTML_Some (id : string) (html : list Z) (doc : gmap string Select)
    (s : Select) :
  doc !! id = Some s →
  set_innerHTML id html doc
  = Some (<[id := {| innerHTML := html; disabled := disabled s |}]> doc).
Proof. intros H. unfold set_innerHTML. by rewrite H. Qed.

Lemma set_disabled_Some (id : string) (b : bool) (doc : gmap string Select)
    (s : Select) :
  doc !! id = Some s →
  set_disabled id b doc
  = Some (<[id := {| innerHTML := innerHTML s; disabled := b |}]> doc).
Proof. intros H. unfold set_disabled. by rewrite H. Qed.

(** One statement of the function on a page that has the element. *)
Ltac dropdown_step :=
  first
    [ erewrite set_innerHTML_Some by (simplify_map_eq; reflexivity)
    | erewrite set_disabled_Some by (simplify_map_eq; reflexivity) ];
  cbn [mbind option_bind innerHTML disabled].

Lemma dropdowns_after (T : Tables) (f : Form) (doc : gmap string Select) :
  (∀ x, is_Some (doc !! field_id x)) →
  ∃ doc',
    handleInstitutionTypeChange T (institutionType f) doc = Some doc'
    ∧ (∀ x, doc' !! field_id x
            = Some (if is_required f x
                    then {| innerHTML := options_markup (options_of T x);
                            disabled := false |}
                    else {| innerHTML := []; disabled := true |}))
    ∧ (∀ id, (∀ x, id ≠ field_id x) → doc' !! id = doc !! id).
Proof.
  intros Hdoc.
  destruct (Hdoc FTE) as [s1 H1], (Hdoc GIE) as [s2 H2],
    (Hdoc GIE_two_year) as [s3 H3], (Hdoc BusinessLevel) as [s4 H4],
    (Hdoc Region) as [s5 H5]. cbn [field_id] in *.
  unfold handleInstitutionTypeChange, clearDropdown, populateDropdown,
    is_required, required.
  do 9 dropdown_step.
  destruct (category_of (institutionType f)) as [Hty|Hty|Hty|Hty Hty1 Hty2].
  - rewrite Hty. cbn [String.eqb Ascii.eqb Bool.eqb].
    do 6 dropdown_step. eexists. split; [reflexivity|]. split.
    + intros x. destruct x; cbn; simplify_map_eq; reflexivity.
    + intros id Hid.
      pose proof (Hid FTE); pose proof (Hid GIE); pose proof (Hid GIE_two_year);
        pose proof (Hid BusinessLevel); pose proof (Hid Region).
      cbn [field_id] in *. by simplify_map_eq.
  - rewrite Hty. cbn [String.eqb Ascii.eqb Bool.eqb].
    do 4 dropdown_step. eexists. split; [reflexivity|]. split.
    + intros x. destruct x; cbn; simplify_map_eq; reflexivity.
    + intros id Hid.
      pose proof (Hid FTE); pose proof (Hid GIE); pose proof (Hid GIE_two_year);
        pose proof (Hid BusinessLevel); pose proof (Hid Region).
      cbn [field_id] in *. by simplify_map_eq.
  - rewrite Hty. cbn [String.eqb Ascii.eqb Bool.eqb].
    do 3 dropdown_step. eexists. split; [reflexivity|]. split.
    + intros x. destruct x; cbn; simplify_map_eq; reflexivity.
    + intros id Hid.
      pose proof (Hid FTE); pose proof (Hid GIE); pose proof (Hid GIE_two_year);
        pose proof (Hid BusinessLevel); pose proof (Hid Region).
      cbn [field_id] in *. by simplify_map_eq.
  - rewrite Hty, Hty1, Hty2.
    do 2 dropdown_step. eexists. split; [reflexivity|]. split.
    + intros x. destruct x; cbn; simplify_map_eq; reflexivity.
    + intros id Hid.
      pose proof (Hid FTE); pose proof (Hid GIE); pose proof (Hid GIE_two_year);
        pose proof (Hid BusinessLevel); pose proof (Hid Region).
      cbn [field_id] in *. by simplify_map_eq.
Qed.

Lemma set_innerHTML_None (id : string) (html : list Z) (doc : gmap string Select) :
  doc !! id = None → set_innerHTML id html doc = None.
Proof. intros H. unfold set_innerHTML. by rewrite H. Qed.

(** X19: the function runs to its end exactly on the pages that have all
    five dropdowns; on any other page it throws. *)
Theorem handleInstitutionTypeChange_runs (T : Tables) (type : string)
    (doc : gmap string Select) :
  is_Some (handleInstitutionTypeChange T type doc)
  ↔ ∀ x, is_Some (doc !! field_id x).
Proof.
  split.
  - intros [doc' Hrun] x. revert Hrun.
    unfold handleInstitutionTypeChange, clearDropdown.
    destruct (doc !! "fie") as [s1|] eqn:H1;
      [dropdown_step|by rewrite set_innerHTML_None].
    destruct (doc !! "gie") as [s2|] eqn:H2;
      [dropdown_step
      |by rewrite set_innerHTML_None by (by simplify_map_eq)].
    destruct (doc !! "gieTwoYear") as [s3|] eqn:H3;
      [dropdown_step
      |by rewrite set_innerHTML_None by (by simplify_map_eq)].
    destruct (doc !! "businessLevel") as [s4|] eqn:H4;
      [dropdown_step
      |by rewrite set_innerHTML_None by (by simplify_map_eq)].
    destruct (doc !! "region") as [s5|] eqn:H5;
      [|by rewrite set_innerHTML_None by (by simplify_map_eq)].
    intros _. destruct x; cbn [field_id]; by eauto.
  - intros Hdoc.
    destruct (dropdowns_after T
                {| institutionType := type; fie := ""; gie := "";
                   gieTwoYear := ""; businessLevel := ""; region := "" |}
                doc Hdoc) as (doc' & Hrun & _).
    cbn in Hrun. by rewrite Hrun.
Qed.

Lemma field_id_cases (id : string) :
  (∃ x, id = field_id x) ∨ (∀ x, id ≠ field_id x).
Proof.
  destruct (decide (id = "fie")) as [->|]; [left; by exists FTE|].
  destruct (decide (id = "gie")) as [->|]; [left; by exists GIE|].
  destruct (decide (id = "gieTwoYear")) as [->|];
    [left; by exists GIE_two_year|].
  destruct (decide (id = "businessLevel")) as [->|];
    [left; by exists BusinessLevel|].
  destruct (decide (id = "region")) as [->|]; [left; by exists Region|].
  right. intros x. by destruct x.
Qed.

(** X18: on a page with the five dropdowns the function leaves exactly
    the dropdowns of the selections that [calculateFee] requires for the
    category enabled, each filled with the options of its list; the others
    are disabled and empty; no other element is touched; the result does
    not depend on what the dropdowns held before, so that running the
    function again changes nothing. *)
Theorem handleInstitutionTypeChange_enabled (T : Tables) (f : Form)
    (doc : gmap string Select) :
  (∀ x, is_Some (doc !! field_id x)) →
  ∃ doc',
    handleInstitutionTypeChange T (institutionType f) doc = Some doc'
    ∧ (∀ x, doc' !! field_id x
            = Some (if is_required f x
                    then {| innerHTML := options_markup (options_of T x);
                            disabled := false |}
                    else {| innerHTML := []; disabled := true |}))
    ∧ (∀ id, (∀ x, id ≠ field_id x) → doc' !! id = doc !! id)
    ∧ handleInstitutionTypeChange T (institutionType f) doc' = Some doc'.
Proof.
  intros Hdoc.
  destruct (dropdowns_after T f doc Hdoc) as (d1 & Hrun1 & Hsel1 & Hother1).
  exists d1. split; [done|]. split; [done|]. split; [done|].
  destruct (dropdowns_after T f d1) as (d2 & Hrun2 & Hsel2 & Hother2).
  { intros x. rewrite Hsel1. eauto. }
  rewrite Hrun2. f_equal. apply map_eq. intros id.
  destruct (field_id_cases id) as [[x ->]|Hno].
  - by rewrite Hsel1, Hsel2.
  - by apply Hother2.
Qed.

(** A page with the five dropdowns, all enabled and holding some text. *)
Lemma handleInstitutionTypeChange_enabled_witness :
  ∃ doc',
    handleInstitutionTypeChange sample_tables "business-partner"
      (list_to_map
         ((fun x => (field_id x, {| innerHTML := [120]; disabled := false |}))
            <$> [FTE; GIE; GIE_two_year; BusinessLevel; Region]))
    = Some doc'
    ∧ doc' !! "businessLevel"
      = Some {| innerHTML :=
                  options_markup (Labelled <$> businessPartnerLevels sample_tables);
                disabled := false |}
    ∧ doc' !! "region" = Some {| innerHTML := []; disabled := true |}
    ∧ handleInstitutionTypeChange sample_tables "business-partner" doc'
      = Some doc'.
Proof.
  destruct (handleInstitutionTypeChange_enabled sample_tables gold_partner
              (list_to_map
                 ((fun x => (field_id x,
                             {| innerHTML := [120]; disabled := false |}))
                    <$> [FTE; GIE; GIE_two_year; BusinessLevel; Region])))
    as (doc' & Hrun & Hsel & _ & Hagain).
  - intros x. destruct x; vm_compute; eauto.
  - exists doc'. split; [exact Hrun|].
    split; [exact (Hsel BusinessLevel)|].
    split; [exact (Hsel Region)|exact Hagain].
Defined.

(** ** What [calculateFee] reads *)

(** Use the fact that two forms agree on the required selection [x]. *)
Ltac same_selection Hsel x :=
  let H := fresh "Hx" in
  assert (H := Hsel x ltac:(in_list));
  cbn [selection] in H; rewrite <- H; clear H.

(** X20: [calculateFee] reads the institution type and the selections
    required for it, and nothing else of the form: two pages that agree on
    these (and on the results and alerts shown so far) show the same
    results and alerts afterwards, whatever the other dropdowns hold. *)
Theorem calculateFee_reads_required (T : Tables) (d1 d2 : Dom) :
  institutionType (form d1) = institutionType (form d2) →
  (∀ x, x ∈ required (form d1) →
        selection (form d1) x = selection (form d2) x) →
  results d1 = results d2 →
  alerts d1 = alerts d2 →
  results (calculateFee T d1) = results (calculateFee T d2)
  ∧ alerts (calculateFee T d1) = alerts (calculateFee T d2).
Proof.
  intros Hty Hsel Hres Hal.
  assert (Hstep : national_step T (form d1) = national_step T (form d2)
                  ∧ ∀ n, regional_step T (form d1) n
                         = regional_step T (form d2) n).
  { unfold national_step, regional_step. rewrite <- Hty.
    unfold required in Hsel.
    destruct (category_of (institutionType (form d1)))
      as [Hc|Hc|Hc|Hc Hc1 Hc2].
    - rewrite Hc in *. cbn [String.eqb Ascii.eqb Bool.eqb negb] in *.
      same_selection Hsel FTE. same_selection Hsel GIE.
      same_selection Hsel Region. done.
    - rewrite Hc in *. cbn [String.eqb Ascii.eqb Bool.eqb negb] in *.
      same_selection Hsel GIE_two_year. same_selection Hsel Region. done.
    - rewrite Hc in *. cbn [String.eqb Ascii.eqb Bool.eqb negb] in *.
      same_selection Hsel BusinessLevel. done.
    - rewrite Hc, Hc1, Hc2 in *. cbn [negb].
      same_selection Hsel Region. done. }
  destruct Hstep as [Hn Hr]. unfold calculateFee. rewrite <- Hn.
  destruct (national_step T (form d1)) as [msg|national].
  - cbn. by rewrite Hres, Hal.
  - rewrite <- Hr.
    destruct (regional_step T (form d1) national) as [msg|regional]; cbn;
      by rewrite ?Hres, ?Hal.
Qed.

(** A business partner: the region and the four-year selections differ. *)
Lemma calculateFee_reads_required_witness :
  results (calculateFee sample_tables (page gold_partner))
  = results (calculateFee sample_tables
               (page {| institutionType := "business-partner";
                        fie := "Small"; gie := "Low"; gieTwoYear := "";
                        businessLevel := "gold"; region := "R1" |}))
  ∧ alerts (calculateFee sample_tables (page gold_partner))
    = alerts (calculateFee sample_tables
                (page {| institutionType := "business-partner";
                         fie := "Small"; gie := "Low"; gieTwoYear := "";
                         businessLevel := "gold"; region := "R1" |})).
Proof.
  apply calculateFee_reads_required; try reflexivity.
  intros x Hx. apply list_elem_of_In in Hx. cbn in Hx.
  destruct Hx as [<-|[]]. reflexivity.
Defined.

(** ** The dropdowns before the file is loaded *)

Lemma options_of_initial (x : field) : options_of initial x = [].
Proof. by destruct x. Qed.

(** X21: while the tables are still those of the script's first lines
    (the file is not loaded yet), the function leaves all five dropdowns
    without any option, also the enabled ones. *)
Theorem handleInstitutionTypeChange_initial (type : string)
    (doc : gmap string Select) :
  (∀ x, is_Some (doc !! field_id x)) →
  ∃ doc',
    handleInstitutionTypeChange initial type doc = Some doc'
    ∧ ∀ x, innerHTML <$> doc' !! field_id x = Some [].
Proof.
  intros Hdoc.
  destruct (dropdowns_after initial
              {| institutionType := type; fie := ""; gie := "";
                 gieTwoYear := ""; businessLevel := ""; region := "" |}
              doc Hdoc) as (doc' & Hrun & Hsel & _).
  exists doc'. split; [exact Hrun|]. intros x. rewrite Hsel.
  rewrite options_of_initial. by destruct (is_required _ x).
Qed.

Lemma handleInstitutionTypeChange_initial_witness :
  ∃ doc',
    handleInstitutionTypeChange initial "four-year"
      (list_to_map ((fun x => (field_id x, {| innerHTML := [120]; disabled := true |}))
                      <$> [FTE; GIE; GIE_two_year; BusinessLevel; Region]))
    = Some doc'
    ∧ ∀ x, innerHTML <$> doc' !! field_id x = Some [].
Proof.
  apply handleInstitutionTypeChange_initial.
  intros x. destruct x; vm_compute; eauto.
Defined.
